(** * Microsoft Face component: request pipeline and mirrored store

    A shallow embedding of [homeassistant/components/microsoft_face.py]:
    the generic request operation [call_api], the full sync
    [update_store], the six service handlers registered by
    [async_setup], and the group entity view
    [MicrosoftFaceGroupEntity].

    Python values that travel through the component (parsed JSON
    answers, dictionary keys, service payload fields) are modelled by
    [pyval]; exceptions by [exn]; coroutines by a state-and-exception
    monad over a [world] that holds the mirrored store, the entity
    registry, the state of the outside world and an event trace. *)

From Stdlib Require Import ZArith Ascii String List.
From stdpp Require Import base gmap strings list fin_maps pretty.

Open Scope string_scope.
Open Scope Z_scope.
Set Warnings "-register-all".

(** ** Python values *)

(** The values produced by [response.json()] and stored in the
    dictionaries of the component.  JSON numbers are kept as integers;
    a [PDict] stands for a Python [dict], so its keys are pairwise
    distinct and a lookup returns the first binding. *)
Inductive pyval : Type :=
  | PNone
  | PBool (b : bool)
  | PInt (z : Z)
  | PStr (s : string)
  | PList (l : list pyval)
  | PDict (kvs : list (string * pyval)).

(** Hashable values, as used for dictionary keys.  Python identifies
    [True]/[False] with [1]/[0] as keys. *)
Inductive pykey : Type :=
  | KNone
  | KInt (z : Z)
  | KStr (s : string).

Global Instance pykey_eq_dec : EqDecision pykey.
Proof. solve_decision. Defined.

Definition pykey_enc (k : pykey) : option (Z + string) :=
  match k with
  | KNone => None
  | KInt z => Some (inl z)
  | KStr s => Some (inr s)
  end.

Definition pykey_dec (o : option (Z + string)) : pykey :=
  match o with
  | None => KNone
  | Some (inl z) => KInt z
  | Some (inr s) => KStr s
  end.

Global Instance pykey_countable : Countable pykey.
Proof.
  apply (inj_countable' pykey_enc pykey_dec).
  intros []; reflexivity.
Defined.

(** The exceptions that can cross the functions of the component. *)
Inductive exn : Type :=
  | HomeAssistantError (msg : pyval)
  | KeyError (key : pyval)
  | TypeError
  | ValueError
  | UnboundLocalError (var : string)
  | ClientError
  | TimeoutError.

Inductive result (A : Type) : Type :=
  | Return (a : A)
  | Raise (e : exn).
Arguments Return {A} a.
Arguments Raise {A} e.

(** [hash(v)]: lists and dictionaries are unhashable. *)
Definition py_hash (v : pyval) : option pykey :=
  match v with
  | PNone => Some KNone
  | PBool b => Some (KInt (if b then 1 else 0))
  | PInt z => Some (KInt z)
  | PStr s => Some (KStr s)
  | PList _ | PDict _ => None
  end.

Fixpoint assoc_get (kvs : list (string * pyval)) (k : string) : option pyval :=
  match kvs with
  | [] => None
  | (k', v) :: rest => if String.eqb k' k then Some v else assoc_get rest k
  end.

(** [v[k]] for a string subscript [k]. *)
Definition py_getitem (v : pyval) (k : string) : result pyval :=
  match v with
  | PDict kvs =>
      match assoc_get kvs k with
      | Some x => Return x
      | None => Raise (KeyError (PStr k))
      end
  | _ => Raise TypeError
  end.

Definition chars_of (s : string) : list pyval :=
  List.map (fun c => PStr (String c EmptyString)) (list_ascii_of_string s).

(** The sequence a [for] loop walks over. *)
Definition py_iter (v : pyval) : result (list pyval) :=
  match v with
  | PList l => Return l
  | PDict kvs => Return (List.map (fun kv => PStr (fst kv)) kvs)
  | PStr s => Return (chars_of s)
  | PNone | PBool _ | PInt _ => Raise TypeError
  end.

(** ** The host: everything the component calls but does not define *)

Inductive api_data : Type :=
  | DataJson (v : pyval)
  | DataBytes (image : list Byte.byte).

Inductive api_payload : Type :=
  | PayloadNone
  | PayloadEncoded (v : pyval)
  | PayloadRaw (d : api_data).

Record request : Type := Request {
  req_method : string;
  req_url : string;
  req_payload : api_payload;
  req_headers : list (string * string);
  req_params : option pyval
}.

(** What the web session gives back inside the timeout block: either
    the request itself raises, or a response object arrives whose
    [json()] in turn returns or raises. *)
Inductive http_outcome : Type :=
  | NoResponse (e : exn)
  | Response (status : Z) (url : string) (body : result pyval).

(** The collaborators of the component.  [slugify] is
    [homeassistant.util.slugify], [camera_get_image] is
    [camera.async_get_image], [http] is the aiohttp client session under
    [async_timeout], and [py_repr] is Python's rendering of lists and
    dictionaries by [str.format]. *)
Class Host : Type := {
  env : Type;
  http : request -> env -> http_outcome * env;
  camera_get_image : string -> env -> result (list Byte.byte) * env;
  slugify : string -> string;
  py_repr : pyval -> string
}.

Section Component.
Context `{host : Host}.

(** [str(v)], as substituted by [str.format] and [%s]. *)
Definition py_str (v : pyval) : string :=
  match v with
  | PNone => "None"
  | PBool true => "True"
  | PBool false => "False"
  | PInt z => pretty z
  | PStr s => s
  | PList _ | PDict _ => py_repr v
  end.

(** ** The world *)

Record entity : Type := Entity {
  ent_id : pyval;
  ent_name : pyval
}.

Inductive level : Type := Debug | Warning | Error.

Inductive event : Type :=
  | EvRequest (r : request)
  | EvLog (lvl : level) (fmt : string) (args : list pyval)
  | EvStateSet (entity_id : string) (state : nat) (attrs : gmap pykey pyval)
  | EvStateRemove (entity_id : string).

Record world : Type := World {
  store : gmap pykey (gmap pykey pyval);
  entities : gmap pykey entity;
  outside : env;
  trace : list event
}.

Definition with_store (s : gmap pykey (gmap pykey pyval)) (w : world) : world :=
  World s (entities w) (outside w) (trace w).
Definition with_entities (es : gmap pykey entity) (w : world) : world :=
  World (store w) es (outside w) (trace w).
Definition with_outside (e : env) (w : world) : world :=
  World (store w) (entities w) e (trace w).
Definition emit (ev : event) (w : world) : world :=
  World (store w) (entities w) (outside w) (trace w ++ [ev]).

(** ** Coroutines *)

Definition M (A : Type) : Type := world -> result A * world.

Definition ret {A} (a : A) : M A := fun w => (Return a, w).
Definition raise {A} (e : exn) : M A := fun w => (Raise e, w).
Definition bind {A B} (m : M A) (f : A -> M B) : M B :=
  fun w =>
    match m w with
    | (Return a, w') => f a w'
    | (Raise e, w') => (Raise e, w')
    end.

(** [try: body except HomeAssistantError as err: handler err]. *)
Definition try_except_HA {A} (body : M A) (handler : pyval -> M A) : M A :=
  fun w =>
    match body w with
    | (Raise (HomeAssistantError msg), w') => handler msg w'
    | r => r
    end.

Definition lift {A} (r : result A) : M A := fun w => (r, w).
Definition log (lvl : level) (fmt : string) (args : list pyval) : M unit :=
  fun w => (Return tt, emit (EvLog lvl fmt args) w).

End Component.

Notation "'let!' x ':=' m 'in' k" := (bind m (fun x => k))
  (at level 10, x name, m at level 100, k at level 200).
Notation "'do!' m 'in' k" := (bind m (fun _ => k))
  (at level 10, m at level 100, k at level 200).

(** ** The client *)

Definition DOMAIN : string := "microsoft_face".
Definition CONTENT_TYPE : string := "Content-Type".

(** [FACE_API_URL] up to its [{0}] placeholder, which [call_api] fills
    with the resource path (the region text is taken to contain no
    format braces of its own). *)
Definition FACE_API_URL : string := "api.cognitive.microsoft.com/face/v1.0/".

(** The immutable fields of a [MicrosoftFace] object; [_store] and
    [_entities] live in the [world]. *)
Record MicrosoftFace : Type := {
  timeout : Z;
  api_key : string;
  server_url : string
}.

Definition MicrosoftFace_init (server_loc key : string) (tmo : Z) : MicrosoftFace :=
  {| timeout := tmo;
     api_key := key;
     server_url := "https://" ++ server_loc ++ "." ++ FACE_API_URL |}.

Section Client.
Context `{host : Host}.
Variable face : MicrosoftFace.

(** *** [call_api] *)

Definition content_type (binary : bool) : string :=
  if binary then "application/octet-stream" else "application/json".

(** The [payload] handed to the session: raw [data] under the binary
    flag, [json.dumps(data).encode()] otherwise. *)
Definition encode_payload (data : option api_data) (binary : bool)
  : result api_payload :=
  if binary then
    Return (match data with Some d => PayloadRaw d | None => PayloadNone end)
  else
    match data with
    | Some (DataJson v) => Return (PayloadEncoded v)
    | Some (DataBytes _) => Raise TypeError
    | None => Return PayloadNone
    end.

Definition send (r : request) : M http_outcome :=
  fun w =>
    let (o, e') := http r (outside w) in
    (Return o, emit (EvRequest r) (with_outside e' w)).

Definition network_error : exn :=
  HomeAssistantError (PStr "Network error on microsoft face api.").

(** The two [except] clauses of [call_api] followed by the [raise]
    after the [try] statement.  [response] is the local variable of that
    name: unbound ([None]) until the request has returned. *)
Definition call_api_except (response : option (Z * string)) (e : exn) : M pyval :=
  match e with
  | ClientError =>
      do! log Warning "Can't connect to microsoft face api" [] in
      raise network_error
  | TimeoutError =>
      match response with
      | Some (_, url) =>
          do! log Warning "Timeout from microsoft face api %s" [PStr url] in
          raise network_error
      | None => raise (UnboundLocalError "response")
      end
  | _ => raise e
  end.

(** [answer['error']['message']] *)
Definition error_message (answer : pyval) : result pyval :=
  match py_getitem answer "error" with
  | Return err => py_getitem err "message"
  | Raise e => Raise e
  end.

(** The request [call_api] hands to the session. *)
Definition build_request (method function : string) (data : option api_data)
    (binary : bool) (params : option pyval) : result request :=
  let headers := [("Ocp-Apim-Subscription-Key", api_key face);
                  (CONTENT_TYPE, content_type binary)] in
  let url := server_url face ++ function in
  match encode_payload data binary with
  | Return payload => Return (Request method url payload headers params)
  | Raise e => Raise e
  end.

Definition call_api (method function : string) (data : option api_data)
    (binary : bool) (params : option pyval) : M pyval :=
  let! r := lift (build_request method function data binary params) in
  let! o := send r in
  match o with
  | NoResponse e => call_api_except None e
  | Response status rurl (Raise e) => call_api_except (Some (status, rurl)) e
  | Response status rurl (Return answer) =>
      do! log Debug "Read from microsoft face api: %s" [answer] in
      if status <? 300 then ret answer
      else
        do! log Warning "Error %d microsoft face api %s" [PInt status; PStr rurl] in
        match error_message answer with
        | Return msg => call_api_except (Some (status, rurl)) (HomeAssistantError msg)
        | Raise e => call_api_except (Some (status, rurl)) e
        end
  end.

(** *** Dictionary primitives on the two shared dictionaries *)

(** [d[k]] on the store, for an arbitrary subscript value. *)
Definition store_get (k : pyval) : M (gmap pykey pyval) :=
  fun w =>
    match py_hash k with
    | None => (Raise TypeError, w)
    | Some key =>
        match store w !! key with
        | Some m => (Return m, w)
        | None => (Raise (KeyError k), w)
        end
    end.

(** [store[k] = m] *)
Definition store_set (k : pyval) (m : gmap pykey pyval) : M unit :=
  fun w =>
    match py_hash k with
    | None => (Raise TypeError, w)
    | Some key => (Return tt, with_store (<[key := m]> (store w)) w)
    end.

(** [store.pop(k)] *)
Definition store_pop (k : pyval) : M (gmap pykey pyval) :=
  fun w =>
    match py_hash k with
    | None => (Raise TypeError, w)
    | Some key =>
        match store w !! key with
        | Some m => (Return m, with_store (delete key (store w)) w)
        | None => (Raise (KeyError k), w)
        end
    end.

Definition entities_get (k : pyval) : M entity :=
  fun w =>
    match py_hash k with
    | None => (Raise TypeError, w)
    | Some key =>
        match entities w !! key with
        | Some e => (Return e, w)
        | None => (Raise (KeyError k), w)
        end
    end.

Definition entities_set (k : pyval) (e : entity) : M unit :=
  fun w =>
    match py_hash k with
    | None => (Raise TypeError, w)
    | Some key => (Return tt, with_entities (<[key := e]> (entities w)) w)
    end.

Definition entities_pop (k : pyval) : M entity :=
  fun w =>
    match py_hash k with
    | None => (Raise TypeError, w)
    | Some key =>
        match entities w !! key with
        | Some e => (Return e, with_entities (delete key (entities w)) w)
        | None => (Raise (KeyError k), w)
        end
    end.

(** [store[g][name] = v]: the right-hand side is already a value; the
    target is evaluated left to right. *)
Definition store_set_person (g name v : pyval) : M unit :=
  let! m := store_get g in
  match py_hash name with
  | None => raise TypeError
  | Some key => store_set g (<[key := v]> m)
  end.

(** [store[g].pop(name)] *)
Definition store_pop_person (g name : pyval) : M pyval :=
  let! m := store_get g in
  match py_hash name with
  | None => raise TypeError
  | Some key =>
      match m !! key with
      | Some v => do! store_set g (delete key m) in ret v
      | None => raise (KeyError name)
      end
  end.

(** [store[g].get(name)] *)
Definition store_get_person (g name : pyval) : M pyval :=
  let! m := store_get g in
  match py_hash name with
  | None => raise TypeError
  | Some key => ret (default PNone (m !! key))
  end.

(** *** [MicrosoftFaceGroupEntity] *)

Definition entity_id (e : entity) : string :=
  DOMAIN ++ "." ++ py_str (ent_id e).

Definition state (e : entity) : M nat :=
  let! persons := store_get (ent_id e) in
  ret (size persons).

Definition device_state_attributes (e : entity) : M (gmap pykey pyval) :=
  let! persons := store_get (ent_id e) in
  ret (foldl (fun attr item => <[fst item := snd item]> attr) ∅
             (map_to_list persons)).

(** Modelled from the spec: [Entity.async_update_ha_state] of the host
    framework is not part of this component; it re-renders the entity to
    the presentation layer, that is, it reads the two properties above
    and pushes them to the state machine under the entity id. *)
Definition async_update_ha_state (e : entity) : M unit :=
  let! st := state e in
  let! attr := device_state_attributes e in
  fun w => (Return tt, emit (EvStateSet (entity_id e) st attr) w).

Definition states_async_remove (eid : string) : M unit :=
  fun w => (Return tt, emit (EvStateRemove eid) w).

(** *** [update_store] *)

Fixpoint for_each {A} (l : list A) (body : A -> M unit) : M unit :=
  match l with
  | [] => ret tt
  | x :: rest => do! body x in for_each rest body
  end.

(** [d[name] = v] where [d] is the dictionary found at [store[g]]: the
    inner dictionary is updated in place. *)
Definition dict_setitem (g : pyval) (d : gmap pykey pyval) (name v : pyval) : M unit :=
  match py_hash name with
  | None => raise TypeError
  | Some key => store_set g (<[key := v]> d)
  end.

(** [self._store[g_id][person['name']] = person['personId']]: Python
    evaluates the right-hand side, then the target from left to
    right. *)
Definition sync_person (g_id person : pyval) : M unit :=
  let! p_id := lift (py_getitem person "personId") in
  let! d := store_get g_id in
  let! name := lift (py_getitem person "name") in
  dict_setitem g_id d name p_id.

(** One turn of [for group in groups]; the value is the entity whose
    refresh coroutine is appended to [tasks]. *)
Definition sync_group (group : pyval) : M entity :=
  let! g_id := lift (py_getitem group "personGroupId") in
  do! store_set g_id ∅ in
  let! name := lift (py_getitem group "name") in
  do! entities_set g_id (Entity g_id name) in
  let! persons :=
    call_api "get" ("persongroups/" ++ py_str g_id ++ "/persons") None false None in
  let! ps := lift (py_iter persons) in
  do! for_each ps (sync_person g_id) in
  entities_get g_id.

Fixpoint sync_groups (groups : list pyval) (tasks : list entity) : M (list entity) :=
  match groups with
  | [] => ret tasks
  | group :: rest =>
      let! task := sync_group group in
      sync_groups rest (tasks ++ [task])
  end.

(** [asyncio.wait(tasks)]: every refresh coroutine runs to completion;
    an exception inside one stays in its task and is not raised by
    [wait].  The coroutines only read the store, so the schedule chosen
    here (list order) is one of the admissible interleavings. *)
Definition asyncio_wait (tasks : list entity) : M unit :=
  for_each tasks
    (fun e => fun w => (Return tt, snd (async_update_ha_state e w))).

Definition update_store : M unit :=
  let! groups := call_api "get" "persongroups" None false None in
  let! gs := lift (py_iter groups) in
  let! tasks := sync_groups gs [] in
  match tasks with
  | [] => ret tt
  | _ => asyncio_wait tasks
  end.

(** *** The service handlers of [async_setup]

    Their arguments are the fields of [service.data], after the
    schema of the service has validated them. *)

Definition camera_async_get_image (camera_entity : string) : M (list Byte.byte) :=
  fun w =>
    let (r, e') := camera_get_image camera_entity (outside w) in
    (r, with_outside e' w).

Definition async_create_group (name : string) : M unit :=
  let g_id := slugify name in
  try_except_HA
    (do! call_api "put" ("persongroups/" ++ g_id)
           (Some (DataJson (PDict [("name", PStr name)]))) false None in
     do! store_set (PStr g_id) ∅ in
     do! entities_set (PStr g_id) (Entity (PStr g_id) (PStr name)) in
     let! e := entities_get (PStr g_id) in
     async_update_ha_state e)
    (fun err =>
       log Error "Can't create group '%s' with error: %s" [PStr g_id; err]).

Definition async_delete_group (name : string) : M unit :=
  let g_id := slugify name in
  try_except_HA
    (do! call_api "delete" ("persongroups/" ++ g_id) None false None in
     do! store_pop (PStr g_id) in
     let! e := entities_pop (PStr g_id) in
     states_async_remove (entity_id e))
    (fun err =>
       log Error "Can't delete group '%s' with error: %s" [PStr g_id; err]).

Definition async_train_group (g_id : string) : M unit :=
  try_except_HA
    (do! call_api "post" ("persongroups/" ++ g_id ++ "/train") None false None in
     ret tt)
    (fun err =>
       log Error "Can't train group '%s' with error: %s" [PStr g_id; err]).

Definition async_create_person (name g_id : string) : M unit :=
  try_except_HA
    (let! user_data :=
       call_api "post" ("persongroups/" ++ g_id ++ "/persons")
         (Some (DataJson (PDict [("name", PStr name)]))) false None in
     let! p_id := lift (py_getitem user_data "personId") in
     let! d := store_get (PStr g_id) in
     do! dict_setitem (PStr g_id) d (PStr name) p_id in
     let! e := entities_get (PStr g_id) in
     async_update_ha_state e)
    (fun err =>
       log Error "Can't create person '%s' with error: %s" [PStr name; err]).

Definition async_delete_person (name g_id : string) : M unit :=
  let! p_id := store_get_person (PStr g_id) (PStr name) in
  try_except_HA
    (do! call_api "delete"
           ("persongroups/" ++ g_id ++ "/persons/" ++ py_str p_id)
           None false None in
     do! store_pop_person (PStr g_id) (PStr name) in
     let! e := entities_get (PStr g_id) in
     async_update_ha_state e)
    (fun err =>
       log Error "Can't delete person '%s' with error: %s" [p_id; err]).

Definition async_face_person (person g_id camera_entity : string) : M unit :=
  let! p_id := store_get_person (PStr g_id) (PStr person) in
  try_except_HA
    (let! image := camera_async_get_image camera_entity in
     do! call_api "post"
           ("persongroups/" ++ g_id ++ "/persons/" ++ py_str p_id
              ++ "/persistedFaces")
           (Some (DataBytes image)) true None in
     ret tt)
    (fun err =>
       log Error "Can't delete person '%s' with error: %s" [p_id; err]).

(** The services registered under [DOMAIN], with their validated
    payloads. *)
Inductive command : Type :=
  | CreateGroup (name : string)
  | DeleteGroup (name : string)
  | TrainGroup (group : string)
  | CreatePerson (name group : string)
  | DeletePerson (name group : string)
  | FacePerson (person group camera_entity : string).

Definition handle (c : command) : M unit :=
  match c with
  | CreateGroup name => async_create_group name
  | DeleteGroup name => async_delete_group name
  | TrainGroup g => async_train_group g
  | CreatePerson name g => async_create_person name g
  | DeletePerson name g => async_delete_person name g
  | FacePerson p g cam => async_face_person p g cam
  end.

(** Every handler has the same shape: statements before the [try]
    that resolve the identifier its log line mentions, the body of the
    [try], and the [except HomeAssistantError] clause. *)
Definition resolve (c : command) : M pyval :=
  match c with
  | CreateGroup name | DeleteGroup name => ret (PStr (slugify name))
  | TrainGroup g => ret (PStr g)
  | CreatePerson name _ => ret (PStr name)
  | DeletePerson name g => store_get_person (PStr g) (PStr name)
  | FacePerson p g _ => store_get_person (PStr g) (PStr p)
  end.

Definition work (c : command) (subject : pyval) : M unit :=
  match c with
  | CreateGroup name =>
      let g_id := slugify name in
      do! call_api "put" ("persongroups/" ++ g_id)
            (Some (DataJson (PDict [("name", PStr name)]))) false None in
      do! store_set (PStr g_id) ∅ in
      do! entities_set (PStr g_id) (Entity (PStr g_id) (PStr name)) in
      let! e := entities_get (PStr g_id) in
      async_update_ha_state e
  | DeleteGroup name =>
      let g_id := slugify name in
      do! call_api "delete" ("persongroups/" ++ g_id) None false None in
      do! store_pop (PStr g_id) in
      let! e := entities_pop (PStr g_id) in
      states_async_remove (entity_id e)
  | TrainGroup g_id =>
      do! call_api "post" ("persongroups/" ++ g_id ++ "/train") None false None in
      ret tt
  | CreatePerson name g_id =>
      let! user_data :=
        call_api "post" ("persongroups/" ++ g_id ++ "/persons")
          (Some (DataJson (PDict [("name", PStr name)]))) false None in
      let! p_id := lift (py_getitem user_data "personId") in
      let! d := store_get (PStr g_id) in
      do! dict_setitem (PStr g_id) d (PStr name) p_id in
      let! e := entities_get (PStr g_id) in
      async_update_ha_state e
  | DeletePerson name g_id =>
      do! call_api "delete"
            ("persongroups/" ++ g_id ++ "/persons/" ++ py_str subject)
            None false None in
      do! store_pop_person (PStr g_id) (PStr name) in
      let! e := entities_get (PStr g_id) in
      async_update_ha_state e
  | FacePerson _ g_id camera_entity =>
      let! image := camera_async_get_image camera_entity in
      do! call_api "post"
            ("persongroups/" ++ g_id ++ "/persons/" ++ py_str subject
               ++ "/persistedFaces")
            (Some (DataBytes image)) true None in
      ret tt
  end.

Definition error_format (c : command) : string :=
  match c with
  | CreateGroup _ => "Can't create group '%s' with error: %s"
  | DeleteGroup _ => "Can't delete group '%s' with error: %s"
  | TrainGroup _ => "Can't train group '%s' with error: %s"
  | CreatePerson _ _ => "Can't create person '%s' with error: %s"
  | DeletePerson _ _ | FacePerson _ _ _ =>
      "Can't delete person '%s' with error: %s"
  end.

(** The requests recorded in a trace, oldest first. *)
Definition requests (t : list event) : list request :=
  omap (fun ev => match ev with EvRequest r => Some r | _ => None end) t.

(** The requests issued so far. *)
Definition sent (w : world) : list request := requests (trace w).

(** A coroutine that leaves an aspect [f] of the world (the store, the
    entity registry, the requests sent) as it found it, however it
    ends. *)
Definition preserves {A X} (f : world -> X) (m : M A) : Prop :=
  forall w, f (snd (m w)) = f w.


(** The request of a parameterless GET on a resource path. *)
Definition get_request (function : string) : request :=
  Request "get" (server_url face ++ function) PayloadNone
    [("Ocp-Apim-Subscription-Key", api_key face);
     (CONTENT_TYPE, content_type false)] None.

(** The remote service answers a GET on [function] with [answer] and a
    success status, whatever happened before. *)
Definition answers (function : string) (answer : pyval) : Prop :=
  forall e, exists status url e',
    http (get_request function) e = (Response status url (Return answer), e') /\
    status < 300.



(** The resource path of a group's person list. *)
Definition persons_path (g_id : pyval) : string :=
  "persongroups/" ++ py_str g_id ++ "/persons".





(** [cv.slugify] accepts a group field exactly when it slugifies to a
    non-empty text, and passes on that text. *)
Definition is_slug (g : string) : Prop :=
  g <> "" /\ exists v, slugify v = g.

Definition schema_accepts (c : command) : Prop :=
  match c with
  | CreateGroup _ | DeleteGroup _ => True
  | TrainGroup g | CreatePerson _ g | DeletePerson _ g | FacePerson _ g _ =>
      is_slug g
  end.

(** *** The two dictionaries together *)

(** The store and the entity registry describe the same groups: a key
    is in one exactly when it is in the other, and the entity found
    under a key is the view of that key's group. *)
Definition registry_consistent (w : world) : Prop :=
  (forall k, is_Some (store w !! k) <-> is_Some (entities w !! k)) /\
  (forall k e, entities w !! k = Some e -> py_hash (ent_id e) = Some k).

(** The store and the registry, taken together. *)
Definition registry (w : world) : gmap pykey (gmap pykey pyval) * gmap pykey entity :=
  (store w, entities w).

(** A coroutine that keeps a property of the world, however it
    ends. *)
Definition keeps {A} (I : world -> Prop) (m : M A) : Prop :=
  forall w, I w -> I (snd (m w)).

(** A coroutine that puts at most one request on the wire. *)
Definition at_most_one_request {A} (m : M A) : Prop :=
  forall w, exists l,
    sent (snd (m w)) = (sent w ++ l)%list /\ (length l <= 1)%nat.

(** The remote service cannot be reached for a GET on [function]:
    the connection fails, whatever happened before. *)
Definition unreachable (function : string) : Prop :=
  forall e, exists e', http (get_request function) e = (NoResponse ClientError, e').

(** The group identifier a service call works on. *)
Definition command_group (c : command) : string :=
  match c with
  | CreateGroup name | DeleteGroup name => slugify name
  | TrainGroup g | CreatePerson _ g | DeletePerson _ g | FacePerson _ g _ => g
  end.

(** Service calls handled one after another; what a handler raises
    ends that call only. *)
Fixpoint dispatch_all (cs : list command) (w : world) : world :=
  match cs with
  | [] => w
  | c :: rest => dispatch_all rest (snd (handle c w))
  end.

End Client.

(** ** [async_setup] *)

(** The services [async_setup] registers under [DOMAIN], in the order
    of registration. *)
Definition SERVICES : list string :=
  ["create_group"; "delete_group"; "train_group";
   "create_person"; "delete_person"; "face_person"].

Section Setup.
Context `{host : Host}.

(** [async_setup], given the three configuration values.  The client
    starts with an empty store and an empty entity registry.  The value
    pairs what the function returns with the services it has registered
    when it returns. *)
Definition async_setup (azure_region key : string) (tmo : Z)
  : M (bool * list string) :=
  let face := MicrosoftFace_init azure_region key tmo in
  fun w =>
    (let! loaded :=
       try_except_HA
         (do! update_store face in ret true)
         (fun err =>
            do! log Error "Can't load data from face api: %s" [err] in
            ret false) in
     if (loaded : bool) then ret (true, SERVICES) else ret (false, []))
      (with_entities ∅ (with_store ∅ w)).

End Setup.

(** ** The BMW Connected Drive device tracker *)

Section Tracker.
Context `{host : Host}.

(** The position of a vehicle, as the collaborator library reports
    it. *)
Variable gps : Type.

Record vehicle : Type := Vehicle {
  vehicle_name : string;
  is_vehicle_tracking_enabled : bool;
  gps_position : gps
}.

(** An entry of [hass.data[BMW_DOMAIN]]: its name and the vehicles of
    its account. *)
Record bmw_account : Type := BMWAccount {
  account_name : string;
  account_vehicles : list vehicle
}.

(** What the tracker does to the outside: debug lines, update
    listeners added to an account, and calls of the [see] callback. *)
Inductive tracker_event : Type :=
  | TrDebug (fmt : string) (args : list string)
  | TrListener (account : string) (v : vehicle)
  | TrSee (dev_id host_name : string) (gps_pos : gps) (icon : string).

(** [BMWDeviceTracker.update] of the tracker of vehicle [v]. *)
Definition update (v : vehicle) (t : list tracker_event) : list tracker_event :=
  let dev_id := slugify (vehicle_name v) in
  if negb (is_vehicle_tracking_enabled v) then
    t ++ [TrDebug "Tracking is disabled for vehicle %s" [dev_id]]
  else
    (t ++ [TrDebug "Updating %s" [dev_id]])
      ++ [TrSee dev_id (vehicle_name v) (gps_position v) "mdi:car"].

(** The body of [for vehicle in account.account.vehicles]. *)
Definition track_vehicle (a : bmw_account) (t : list tracker_event) (v : vehicle)
  : list tracker_event :=
  update v (t ++ [TrListener (account_name a) v]).

Definition setup_scanner (accounts : list bmw_account) (t : list tracker_event)
  : bool * list tracker_event :=
  let t0 :=
    (t ++ [TrDebug "Found BMW accounts: %s"
             [String.concat ", " (List.map account_name accounts)]])%list in
  (true,
   fold_left (fun t a => fold_left (track_vehicle a) (account_vehicles a) t)
     accounts t0).

(** The [see] calls of a trace, as (device id, host name, position),
    and the vehicles whose tracker listens. *)
Definition seen (t : list tracker_event) : list (string * string * gps) :=
  omap (fun ev => match ev with
                  | TrSee d h p _ => Some (d, h, p)
                  | _ => None
                  end) t.

Definition listening (t : list tracker_event) : list vehicle :=
  omap (fun ev => match ev with TrListener _ v => Some v | _ => None end) t.

Definition all_vehicles (accounts : list bmw_account) : list vehicle :=
  List.concat (List.map account_vehicles accounts).

(** What [see] is told about a vehicle. *)
Definition report (v : vehicle) : string * string * gps :=
  (slugify (vehicle_name v), vehicle_name v, gps_position v).

End Tracker.

(** ** Concrete hosts *)

Module Scenario.

(** Modelled from the spec: [homeassistant.util.slugify] is not part of
    this component; the spec describes it as mapping a display name to
    a canonical lowercase, identifier-safe form.  On ASCII text: letters
    are lowered, a space becomes an underscore, and every character
    other than a letter, a digit or an underscore is dropped. *)
Definition slug_char (c : ascii) : option ascii :=
  let n := nat_of_ascii c in
  if ((65 <=? n) && (n <=? 90))%nat then Some (ascii_of_nat (n + 32))
  else if (((97 <=? n) && (n <=? 122)) || ((48 <=? n) && (n <=? 57))
           || (n =? 95))%nat then Some c
  else if (n =? 32)%nat then Some "_"%char
  else None.

Fixpoint slugify_ascii (s : string) : string :=
  match s with
  | EmptyString => EmptyString
  | String c rest =>
      match slug_char c with
      | Some c' => String c' (slugify_ascii rest)
      | None => slugify_ascii rest
      end
  end.

(** A scripted outside world: the session answers the next request
    with the next outcome of a script (a connection error once the
    script is exhausted), the camera likewise. *)
Definition script : Type :=
  (list http_outcome * list (result (list Byte.byte)))%type.

Definition scripted_http (r : request) (e : script) : http_outcome * script :=
  match fst e with
  | o :: rest => (o, (rest, snd e))
  | [] => (NoResponse ClientError, e)
  end.

Definition scripted_camera (cam : string) (e : script)
  : result (list Byte.byte) * script :=
  match snd e with
  | o :: rest => (o, (fst e, rest))
  | [] => (Raise (HomeAssistantError (PStr "Unable to get image")), e)
  end.

Definition scripted : Host := {|
  env := script;
  http := scripted_http;
  camera_get_image := scripted_camera;
  slugify := slugify_ascii;
  py_repr := fun _ => "[...]"
|}.

(** A remote service that answers every request from a fixed table,
    whatever happened before. *)
Definition served (table : request -> http_outcome) : Host := {|
  env := unit;
  http := fun r e => (table r, e);
  camera_get_image := fun _ e => (Return [], e);
  slugify := slugify_ascii;
  py_repr := fun _ => "[...]"
|}.

Definition face : MicrosoftFace := MicrosoftFace_init "westus" "secret" 10.

Definition start (H : Host) (e : @env H) : @world H := @World H ∅ ∅ e [].

Definition ok (answer : pyval) : http_outcome :=
  Response 200 "https://westus.api.cognitive.microsoft.com/" (Return answer).

Definition failed (status : Z) (message : string) : http_outcome :=
  Response status "https://westus.api.cognitive.microsoft.com/"
    (Return (PDict [("error", PDict [("message", PStr message)])])).

(** The mirrored state of the scenario: group [family] with the
    person [Alice]. *)
Definition alice : pyval :=
  PDict [("personId", PStr "abc123"); ("name", PStr "Alice")].

Definition family : pyval :=
  PDict [("personGroupId", PStr "family"); ("name", PStr "Family")].

Definition family_entity : entity := Entity (PStr "family") (PStr "Family").

Definition family_world (H : Host) (persons : gmap pykey pyval) (e : @env H)
  : @world H :=
  @World H {[KStr "family" := persons]} {[KStr "family" := family_entity]} e [].

(** A remote service holding exactly that group and that person. *)
Definition remote_table (r : request) : http_outcome :=
  if String.eqb (req_url r) (server_url face ++ "persongroups")
  then ok (PList [family])
  else if String.eqb (req_url r)
            (server_url face ++ "persongroups/family/persons")
  then ok (PList [alice])
  else failed 404 "Resource not found.".

(** A remote service that serves the group list but cannot be reached
    for anything else, and one that cannot be reached at all. *)
Definition half_reachable_table (r : request) : http_outcome :=
  if String.eqb (req_url r) (server_url face ++ "persongroups")
  then ok (PList [family])
  else NoResponse ClientError.

Definition unreachable_table (r : request) : http_outcome :=
  NoResponse ClientError.

(** The answer of the remote service to a created person. *)
Definition created : pyval := PDict [("personId", PStr "abc123")].

(** Two vehicles of one account, positions as integer pairs; tracking
    is enabled in the first only. *)
Definition tracked_car : vehicle (Z * Z) :=
  Vehicle (Z * Z) "My BMW i3" true (48, 11).

Definition private_car : vehicle (Z * Z) :=
  Vehicle (Z * Z) "Family X5" false (52, 13).

Definition garage : list (bmw_account (Z * Z)) :=
  [BMWAccount (Z * Z) "home" [tracked_car; private_car]].

End Scenario.

(** * Properties *)

Ltac unfold_monad :=
  unfold bind, ret, raise, lift, log, try_except_HA in *.

Section Properties.
Context `{host : Host}.
Variable face : MicrosoftFace.

(** ** [call_api] *)

Lemma error_message_raise answer e :
  error_message answer = Raise e ->
  e = TypeError \/ exists k, e = KeyError (PStr k).
Proof.
  unfold error_message, py_getitem.
  destruct answer; try (intros [= <-]; by left).
  destruct (assoc_get kvs "error") as [err|]; [|intros [= <-]; right; eauto].
  destruct err; try (intros [= <-]; by left).
  destruct (assoc_get kvs0 "message"); [done|intros [= <-]; right; eauto].
Qed.

Lemma call_api_except_frame response e w :
  store (snd (call_api_except response e w)) = store w /\
  entities (snd (call_api_except response e w)) = entities w.
Proof.
  unfold call_api_except.
  destruct e; try destruct response as [[? ?]|]; split; reflexivity.
Qed.

(** [call_api] changes neither of the two shared dictionaries. *)
Lemma call_api_frame method function data binary params w :
  store (snd (call_api face method function data binary params w)) = store w /\
  entities (snd (call_api face method function data binary params w)) = entities w.
Proof.
  unfold call_api. unfold_monad.
  destruct (build_request _ _ _ _ _ _) as [r|e]; [|done].
  unfold send. destruct (http r (outside w)) as [o e'].
  assert (Hx : forall response e w1, store w1 = store w -> entities w1 = entities w ->
    store (snd (call_api_except response e w1)) = store w /\
    entities (snd (call_api_except response e w1)) = entities w).
  { intros response e w1 <- <-. apply call_api_except_frame. }
  destruct o as [e|status rurl [answer|e]]; simpl.
  - by apply Hx.
  - destruct (status <? 300); [done|].
    simpl. destruct (error_message answer); first [by apply Hx | done].
  - by apply Hx.
Qed.

(** A timeout that strikes after the response object exists is turned
    into the network error. *)
Lemma call_api_timeout_in_body method function data binary params w r status rurl e' :
  build_request face method function data binary params = Return r ->
  http r (outside w) = (Response status rurl (Raise TimeoutError), e') ->
  fst (call_api face method function data binary params w) = Raise network_error.
Proof.
  intros Hr Hhttp. unfold call_api. unfold_monad. rewrite Hr.
  unfold send. rewrite Hhttp. reflexivity.
Qed.

(** A timeout that strikes while the request is still in flight reaches
    the handler with [response] unbound. *)
Lemma call_api_timeout_in_flight method function data binary params w r e' :
  build_request face method function data binary params = Return r ->
  http r (outside w) = (NoResponse TimeoutError, e') ->
  fst (call_api face method function data binary params w)
    = Raise (UnboundLocalError "response").
Proof.
  intros Hr Hhttp. unfold call_api. unfold_monad. rewrite Hr.
  unfold send. rewrite Hhttp. reflexivity.
Qed.

(** C1 (as amended): a response of status 300 or above whose body parsed to [answer]
    makes [call_api] raise [HomeAssistantError] with the value found at
    [answer['error']['message']]; when that nested field is absent the
    construction of the error fails instead, with the [KeyError] or
    [TypeError] of the failed subscript. *)
Theorem call_api_error_status method function data binary params w r status rurl answer e' :
  build_request face method function data binary params = Return r ->
  http r (outside w) = (Response status rurl (Return answer), e') ->
  300 <= status ->
  (forall msg, error_message answer = Return msg ->
     fst (call_api face method function data binary params w)
       = Raise (HomeAssistantError msg)) /\
  (forall e, error_message answer = Raise e ->
     fst (call_api face method function data binary params w) = Raise e /\
     (e = TypeError \/ exists k, e = KeyError (PStr k))).
Proof.
  intros Hr Hhttp Hstatus.
  assert (Hlt : (status <? 300) = false) by (apply Z.ltb_ge; lia).
  split.
  - intros msg Hmsg. unfold call_api. unfold_monad. rewrite Hr.
    unfold send. rewrite Hhttp. simpl. rewrite Hlt. simpl. rewrite Hmsg.
    reflexivity.
  - intros e He. split; [|by eapply error_message_raise].
    unfold call_api. unfold_monad. rewrite Hr.
    unfold send. rewrite Hhttp. simpl. rewrite Hlt. simpl. rewrite He.
    destruct (error_message_raise _ _ He) as [->|[k ->]]; reflexivity.
Qed.

(** ** Running coroutines *)

Lemma bind_Return {A B} (m : M A) (f : A -> M B) w a w1 :
  m w = (Return a, w1) -> bind m f w = f a w1.
Proof. unfold bind. by intros ->. Qed.

Lemma bind_Raise {A B} (m : M A) (f : A -> M B) w e w1 :
  m w = (Raise e, w1) -> bind m f w = (Raise e, w1).
Proof. unfold bind. by intros ->. Qed.

Lemma try_except_HA_caught {A} (body : M A) handler w msg w1 :
  body w = (Raise (HomeAssistantError msg), w1) ->
  try_except_HA body handler w = handler msg w1.
Proof. unfold try_except_HA. by intros ->. Qed.

(** What leaves a [try ... except HomeAssistantError] whose handler
    only logs is never a [HomeAssistantError]. *)
Lemma try_except_HA_log (body : M unit) fmt (args : pyval -> list pyval) w msg :
  fst (try_except_HA body (fun err => log Error fmt (args err)) w)
    <> Raise (HomeAssistantError msg).
Proof.
  unfold try_except_HA. destruct (body w) as [[[]|e] w1]; [done|].
  destruct e; done.
Qed.

Lemma store_get_person_inv g name w r w1 :
  store_get_person g name w = (r, w1) ->
  w1 = w /\ forall msg, r <> Raise (HomeAssistantError msg).
Proof.
  unfold store_get_person, store_get. unfold_monad.
  destruct (py_hash g) as [kg|]; [|by intros [= <- <-]].
  destruct (store w !! kg) as [m|]; [|by intros [= <- <-]].
  destruct (py_hash name); by intros [= <- <-].
Qed.

(** The six handlers are instances of one shape. *)
Lemma handle_shape c :
  handle face c =
    (let! subject := resolve c in
     try_except_HA (work face c subject)
       (fun err => log Error (error_format c) [subject; err])).
Proof. destruct c; reflexivity. Qed.

(** C5 (as amended): a [HomeAssistantError] raised inside the [try] of
    a handler is logged as an error and swallowed, the handler
    completing normally, so that no [HomeAssistantError] ever leaves a
    handler; errors of other kinds are not caught: delete person and
    attach face raise [KeyError] before any remote call when the group is
    absent from the store. *)
Theorem service_errors_logged_and_swallowed c w :
  (forall msg, fst (handle face c w) <> Raise (HomeAssistantError msg)) /\
  (forall subject w0 msg w1,
     resolve c w = (Return subject, w0) ->
     work face c subject w0 = (Raise (HomeAssistantError msg), w1) ->
     handle face c w
       = (Return tt, emit (EvLog Error (error_format c) [subject; msg]) w1)) /\
  (forall name person g cam,
     store w !! KStr g = None ->
     handle face (DeletePerson name g) w = (Raise (KeyError (PStr g)), w) /\
     handle face (FacePerson person g cam) w = (Raise (KeyError (PStr g)), w)).
Proof.
  split; [|split].
  - intros msg. rewrite handle_shape. unfold bind.
    destruct (resolve c w) as [[subject|e] w0] eqn:Hres.
    + apply (try_except_HA_log _ _ (fun err => [subject; err])).
    + simpl. intros [= ->].
      destruct c; simpl in Hres; try discriminate;
        by apply store_get_person_inv in Hres as [_ Hne]; eapply Hne.
  - intros subject w0 msg w1 Hres Hwork. rewrite handle_shape.
    rewrite (bind_Return _ _ _ _ _ Hres).
    by rewrite (try_except_HA_caught _ _ _ _ _ Hwork).
  - intros name person g cam Hg.
    split; simpl; unfold async_delete_person, async_face_person;
      apply bind_Raise; unfold store_get_person;
      apply bind_Raise; unfold store_get; simpl; by rewrite Hg.
Qed.

(** ** Frame lemmas *)

Section Frame.
Context {X : Type} (f : world -> X).

Lemma preserves_bind {A B} (m : M A) (k : A -> M B) :
  preserves f m -> (forall a, preserves f (k a)) -> preserves f (bind m k).
Proof.
  intros Hm Hk w. unfold bind. specialize (Hm w).
  destruct (m w) as [[a|e] w1]; simpl in *; [|done].
  by rewrite Hk.
Qed.

Lemma preserves_ret {A} (a : A) : preserves f (ret a).
Proof. done. Qed.

Lemma preserves_raise {A} e : preserves f (@raise _ A e).
Proof. done. Qed.

Lemma preserves_lift {A} (r : result A) : preserves f (lift r).
Proof. done. Qed.

Lemma preserves_try {A} (body : M A) handler :
  preserves f body -> (forall err, preserves f (handler err)) ->
  preserves f (try_except_HA body handler).
Proof.
  intros Hb Hh w. unfold try_except_HA. specialize (Hb w).
  destruct (body w) as [[a|e] w1]; simpl in *; [done|].
  destruct e; try done. by rewrite Hh.
Qed.

Lemma preserves_for_each {A} (l : list A) (body : A -> M unit) :
  (forall a, preserves f (body a)) -> preserves f (for_each l body).
Proof.
  intros Hb. induction l as [|a l IH]; [done|].
  simpl. by apply preserves_bind.
Qed.

(** The dictionary reads change nothing at all. *)
Lemma preserves_store_get k : preserves f (store_get k).
Proof.
  intros w. unfold store_get.
  destruct (py_hash k) as [key|]; [|done]. by destruct (store w !! key).
Qed.

Lemma preserves_entities_get k : preserves f (entities_get k).
Proof.
  intros w. unfold entities_get.
  destruct (py_hash k) as [key|]; [|done]. by destruct (entities w !! key).
Qed.

Lemma preserves_store_get_person g name :
  preserves f (store_get_person g name).
Proof.
  apply preserves_bind; [apply preserves_store_get|].
  intros m. destruct (py_hash name); done.
Qed.

End Frame.

Lemma preserves_log_store lvl fmt args : preserves store (log lvl fmt args).
Proof. done. Qed.

Lemma sent_emit ev w :
  sent (emit ev w) = (sent w ++ match ev with EvRequest r => [r] | _ => [] end)%list.
Proof.
  unfold sent, requests, emit. simpl. rewrite omap_app. simpl.
  by destruct ev.
Qed.

Lemma preserves_log_sent lvl fmt args : preserves sent (log lvl fmt args).
Proof. intros w. unfold log. simpl. rewrite sent_emit. apply app_nil_r. Qed.

Lemma preserves_call_api method function data binary params :
  preserves store (call_api face method function data binary params).
Proof. intros w. apply call_api_frame. Qed.

Lemma preserves_camera_store cam :
  preserves store (camera_async_get_image cam).
Proof.
  intros w. unfold camera_async_get_image.
  by destruct (camera_get_image cam (outside w)).
Qed.


Lemma preserves_async_update_ha_state_sent e :
  preserves sent (async_update_ha_state e).
Proof.
  unfold async_update_ha_state, state, device_state_attributes.
  repeat (apply preserves_bind; [try apply preserves_store_get|intros ?]);
    try apply preserves_ret.
  intros w. simpl. rewrite sent_emit. apply app_nil_r.
Qed.

(** C9: train group and attach face leave the mirrored store exactly
    as they found it, whether the remote call succeeds, fails, or the
    handler itself ends in an exception. *)
Theorem train_and_face_preserve_store w :
  (forall g, store (snd (async_train_group face g w)) = store w) /\
  (forall person g cam,
     store (snd (async_face_person face person g cam w)) = store w).
Proof.
  split.
  - intros g. revert w. apply preserves_try.
    + apply preserves_bind; [apply preserves_call_api|intros; apply preserves_ret].
    + intros; apply preserves_log_store.
  - intros person g cam. revert w.
    apply preserves_bind; [apply preserves_store_get_person|intros p_id].
    apply preserves_try; [|intros; apply preserves_log_store].
    apply preserves_bind; [apply preserves_camera_store|intros image].
    apply preserves_bind; [apply preserves_call_api|intros; apply preserves_ret].
Qed.

(** ** Mutations wait for the remote call *)




(** ** The group entity view *)

Lemma copy_items_lookup (l : list (pykey * pyval)) (acc : gmap pykey pyval) k :
  NoDup l.*1 ->
  foldl (fun attr item => <[fst item := snd item]> attr) acc l !! k
    = match (list_to_map l : gmap pykey pyval) !! k with
      | Some v => Some v
      | None => acc !! k
      end.
Proof.
  revert acc. induction l as [|[k0 v0] l IH]; intros acc Hnd; [done|].
  apply NoDup_cons in Hnd as [Hk0 Hnd]. simpl. rewrite IH by done.
  destruct (decide (k0 = k)) as [->|Hne].
  - rewrite (not_elem_of_list_to_map_1 _ _ Hk0).
    by rewrite !lookup_insert_eq.
  - by rewrite !lookup_insert_ne by done.
Qed.

(** The loop of [device_state_attributes] rebuilds the mapping it
    reads. *)
Lemma copy_items (m : gmap pykey pyval) :
  foldl (fun attr item => <[fst item := snd item]> attr) ∅ (map_to_list m) = m.
Proof.
  apply map_eq. intros k.
  rewrite copy_items_lookup by apply NoDup_fst_map_to_list.
  rewrite list_to_map_to_list, lookup_empty. by destruct (m !! k).
Qed.

Lemma state_present e k m w :
  py_hash (ent_id e) = Some k ->
  store w !! k = Some m ->
  state e w = (Return (size m), w).
Proof.
  intros Hk Hm. unfold state, bind, store_get, ret. by rewrite Hk, Hm.
Qed.

Lemma device_state_attributes_present e k m w :
  py_hash (ent_id e) = Some k ->
  store w !! k = Some m ->
  device_state_attributes e w = (Return m, w).
Proof.
  intros Hk Hm. unfold device_state_attributes, bind, store_get, ret.
  rewrite Hk, Hm. by rewrite copy_items.
Qed.

(** C8: the state of a group entity is the number of entries of the
    group's person mapping in the store at the moment of the read, and
    its attributes are exactly that mapping; both are computed from the
    world in which they are read, and reading changes nothing. *)
Theorem entity_view_reads_store e k m w :
  py_hash (ent_id e) = Some k ->
  store w !! k = Some m ->
  state e w = (Return (size m), w) /\
  device_state_attributes e w = (Return m, w).
Proof.
  intros Hk Hm. split.
  - by apply (state_present e k).
  - by apply (device_state_attributes_present e k).
Qed.

Lemma async_update_ha_state_present e k m w :
  py_hash (ent_id e) = Some k ->
  store w !! k = Some m ->
  async_update_ha_state e w
    = (Return tt, emit (EvStateSet (entity_id e) (size m) m) w).
Proof.
  intros Hk Hm.
  pose proof (state_present e k m w Hk Hm) as Hst.
  pose proof (device_state_attributes_present e k m w Hk Hm) as Hattr.
  unfold async_update_ha_state.
  rewrite (bind_Return _ _ _ _ _ Hst), (bind_Return _ _ _ _ _ Hattr).
  done.
Qed.

(** ** Group life cycle *)

Lemma try_except_HA_bind_Return {A B} (call : M A) (rest : A -> M B) handler w a w1 :
  call w = (Return a, w1) ->
  try_except_HA (bind call rest) handler w = try_except_HA (rest a) handler w1.
Proof. intros Hcall. unfold try_except_HA. by rewrite (bind_Return _ _ _ _ _ Hcall). Qed.

Lemma call_api_result method function data binary params w :
  exists r w1,
    call_api face method function data binary params w = (r, w1) /\
    store w1 = store w /\ entities w1 = entities w.
Proof.
  destruct (call_api_frame method function data binary params w) as [Hs He].
  destruct (call_api face method function data binary params w) as [r w1].
  by exists r, w1.
Qed.

(** What create group does once its remote call has succeeded. *)
Lemma async_create_group_success name w answer w1 :
  call_api face "put" ("persongroups/" ++ slugify name)
    (Some (DataJson (PDict [("name", PStr name)]))) false None w
    = (Return answer, w1) ->
  let g := KStr (slugify name) in
  let e := Entity (PStr (slugify name)) (PStr name) in
  async_create_group face name w
    = (Return tt,
       emit (EvStateSet (entity_id e) 0 ∅)
         (with_entities (<[g := e]> (entities w1))
            (with_store (<[g := ∅]> (store w1)) w1))).
Proof.
  intros Hcall g e. unfold async_create_group.
  rewrite (try_except_HA_bind_Return _ _ _ _ _ _ Hcall).
  unfold try_except_HA, bind, store_set, entities_set, entities_get. simpl.
  rewrite lookup_insert_eq.
  rewrite (async_update_ha_state_present _ g ∅); [done|done|].
  simpl. apply lookup_insert_eq.
Qed.

(** C10: when the remote call of create group succeeds for a name
    whose identifier is already in the store, the handler completes and
    the identifier is mapped to the empty person mapping: the entries
    mirrored before are gone, and no other group is touched. *)
Theorem create_group_resets_mapping name w answer m :
  store w !! KStr (slugify name) = Some m ->
  fst (call_api face "put" ("persongroups/" ++ slugify name)
         (Some (DataJson (PDict [("name", PStr name)]))) false None w)
    = Return answer ->
  fst (async_create_group face name w) = Return tt /\
  store (snd (async_create_group face name w))
    = <[KStr (slugify name) := ∅]> (store w) /\
  store (snd (async_create_group face name w)) !! KStr (slugify name) = Some ∅.
Proof.
  intros _ Hcall.
  destruct (call_api_result "put" ("persongroups/" ++ slugify name)
              (Some (DataJson (PDict [("name", PStr name)]))) false None w)
    as (r & w1 & Heq & Hs & He).
  rewrite Heq in Hcall. simpl in Hcall. subst r.
  rewrite (async_create_group_success _ _ _ _ Heq). simpl.
  rewrite Hs. split; [done|]. split; [done|]. apply lookup_insert_eq.
Qed.

(** C4: create group followed by delete group on the same name, both
    remote calls succeeding, completes both handlers and leaves the
    store without an entry for the normalized identifier. *)
Theorem create_then_delete_group name w a1 a2 :
  fst (call_api face "put" ("persongroups/" ++ slugify name)
         (Some (DataJson (PDict [("name", PStr name)]))) false None w)
    = Return a1 ->
  fst (call_api face "delete" ("persongroups/" ++ slugify name) None false None
         (snd (async_create_group face name w)))
    = Return a2 ->
  fst (async_create_group face name w) = Return tt /\
  fst (async_delete_group face name (snd (async_create_group face name w)))
    = Return tt /\
  store (snd (async_delete_group face name (snd (async_create_group face name w))))
    !! KStr (slugify name) = None.
Proof.
  intros Hput Hdel.
  destruct (call_api_result "put" ("persongroups/" ++ slugify name)
              (Some (DataJson (PDict [("name", PStr name)]))) false None w)
    as (r1 & w1 & Heq1 & _ & _).
  rewrite Heq1 in Hput. simpl in Hput. subst r1.
  rewrite (async_create_group_success _ _ _ _ Heq1) in *. simpl in *.
  split; [done|].
  match type of Hdel with
  | fst (call_api _ _ _ _ _ _ ?w2) = _ =>
      destruct (call_api_result "delete" ("persongroups/" ++ slugify name)
                  None false None w2) as (r2 & w3 & Heq2 & Hs & He)
  end.
  rewrite Heq2 in Hdel. simpl in Hdel, Hs, He. subst r2.
  unfold async_delete_group.
  rewrite (try_except_HA_bind_Return _ _ _ _ _ _ Heq2).
  unfold try_except_HA, bind, store_pop, entities_pop, states_async_remove.
  simpl. rewrite Hs, lookup_insert_eq. simpl.
  rewrite He, lookup_insert_eq. simpl.
  split; [done|]. apply lookup_delete_eq.
Qed.

(** ** Requests on the wire *)

Lemma preserves_call_api_except_sent response e :
  preserves sent (call_api_except response e).
Proof.
  intros w. unfold call_api_except.
  destruct e; try done.
  - unfold bind, log, raise. simpl. rewrite sent_emit. apply app_nil_r.
  - destruct response as [[? ?]|]; [|done].
    unfold bind, log, raise. simpl. rewrite sent_emit. apply app_nil_r.
Qed.

(** [call_api] puts exactly the request it builds on the wire. *)
Lemma call_api_sent method function data binary params r w :
  build_request face method function data binary params = Return r ->
  sent (snd (call_api face method function data binary params w))
    = (sent w ++ [r])%list.
Proof.
  intros Hr. unfold call_api, bind, lift, send, log, ret. rewrite Hr.
  destruct (http r (outside w)) as [o e'].
  destruct o as [e|status rurl [answer|e]].
  - by rewrite preserves_call_api_except_sent, sent_emit.
  - destruct (status <? 300); simpl.
    + by rewrite !sent_emit, app_nil_r.
    + destruct (error_message answer);
        [unfold raise; simpl | rewrite preserves_call_api_except_sent];
        by rewrite !sent_emit, !app_nil_r.
  - by rewrite preserves_call_api_except_sent, sent_emit.
Qed.

Lemma preserves_store_set_sent k m : preserves sent (store_set k m).
Proof. intros w. unfold store_set. by destruct (py_hash k). Qed.

Lemma preserves_store_pop_person_sent g name :
  preserves sent (store_pop_person g name).
Proof.
  apply preserves_bind; [apply preserves_store_get|intros m].
  destruct (py_hash name) as [key|]; [|done].
  destruct (m !! key); [|done].
  apply preserves_bind; [apply preserves_store_set_sent|done].
Qed.

(** After the first call of a guarded handler, nothing more goes on
    the wire when the rest of the handler sends nothing. *)
Lemma guarded_sent {A} (call : M A) (rest : A -> M unit) handler w :
  (forall a, preserves sent (rest a)) ->
  (forall err, preserves sent (handler err)) ->
  sent (snd (try_except_HA (bind call rest) handler w)) = sent (snd (call w)).
Proof.
  intros Hrest Hh. unfold try_except_HA, bind.
  destruct (call w) as [[a|e] w1]; simpl.
  - specialize (Hrest a w1).
    destruct (rest a w1) as [[[]|e] w2]; simpl in *; [done|].
    destruct e; try done. by rewrite Hh.
  - destruct e; try done. by rewrite Hh.
Qed.

(** C7 (as amended): delete person for a name that is absent from the
    mapping of a group present in the store still issues the remote
    DELETE, and the identifier substituted into the resource path is
    the text [None], the rendering of the missing lookup result. *)
Theorem delete_unknown_person_calls_remote name g w m :
  store w !! KStr g = Some m ->
  m !! KStr name = None ->
  exists r,
    build_request face "delete" ("persongroups/" ++ g ++ "/persons/None")
      None false None = Return r /\
    sent (snd (async_delete_person face name g w)) = (sent w ++ [r])%list.
Proof.
  intros Hg Hname. eexists. split; [reflexivity|].
  unfold async_delete_person.
  assert (Hres : store_get_person (PStr g) (PStr name) w = (Return PNone, w)).
  { unfold store_get_person, bind, store_get, ret. simpl.
    by rewrite Hg, Hname. }
  rewrite (bind_Return _ _ _ _ _ Hres).
  rewrite guarded_sent.
  - by apply call_api_sent.
  - intros _. apply preserves_bind; [apply preserves_store_pop_person_sent|].
    intros _. apply preserves_bind; [apply preserves_entities_get|].
    intros e. apply preserves_async_update_ha_state_sent.
  - intros err. apply preserves_log_sent.
Qed.

(** ** Full sync *)



Lemma call_api_answered function answer w :
  answers face function answer ->
  exists w1,
    call_api face "get" function None false None w = (Return answer, w1) /\
    store w1 = store w /\ entities w1 = entities w /\
    sent w1 = (sent w ++ [get_request face function])%list.
Proof.
  intros Hans. destruct (Hans (outside w)) as (status & url & e' & Hhttp & Hlt).
  unfold get_request in Hhttp.
  unfold call_api, build_request, encode_payload, bind, lift, send, log, ret.
  rewrite Hhttp. apply Z.ltb_lt in Hlt. rewrite Hlt.
  eexists. split; [reflexivity|]. split; [done|]. split; [done|].
  by rewrite !sent_emit, app_nil_r.
Qed.






Lemma preserves_asyncio_wait {X} (f : world -> X) tasks :
  (forall e, preserves f (async_update_ha_state e)) ->
  preserves f (asyncio_wait tasks).
Proof.
  intros Hup. apply preserves_for_each. intros e w. simpl. apply Hup.
Qed.

End Properties.

(** * Concrete runs *)

(** C6: a timeout that expires while the request is still in flight,
    with a structured or with a binary payload, leaves [call_api]
    through [UnboundLocalError] (the handler reads [response.url] before
    [response] was ever bound) instead of the fixed network error that
    a timeout after the response has arrived produces. *)
Theorem call_api_timeout_unbound_response :
  let in_flight := Scenario.start Scenario.scripted ([NoResponse TimeoutError], []) in
  let in_body :=
    Scenario.start Scenario.scripted
      ([Response 200 "https://westus.api.cognitive.microsoft.com/" (Raise TimeoutError)], []) in
  fst (call_api Scenario.face "get" "persongroups" None false None in_flight)
    = Raise (UnboundLocalError "response") /\
  fst (call_api Scenario.face "post"
         "persongroups/family/persons/abc123/persistedFaces"
         (Some (DataBytes [])) true None in_flight)
    = Raise (UnboundLocalError "response") /\
  fst (call_api Scenario.face "get" "persongroups" None false None in_body)
    = Raise (HomeAssistantError (PStr "Network error on microsoft face api.")).
Proof. repeat split; reflexivity. Qed.

(** A 404 answer with an error body, as the remote service sends it. *)
Lemma call_api_error_status_witness :
  let w := Scenario.start Scenario.scripted
             ([Scenario.failed 404 "Person group is not found."], []) in
  300 <= 404 /\
  fst (call_api Scenario.face "get" "persongroups/family/persons" None false None w)
    = Raise (HomeAssistantError (PStr "Person group is not found.")).
Proof.
  intros w. split; [lia|].
  refine (proj1 (call_api_error_status (host := Scenario.scripted) Scenario.face
                   "get" "persongroups/family/persons" None false None w
                   _ 404 _ _ _ eq_refl eq_refl _) _ eq_refl).
  lia.
Defined.

(** The handler raises [KeyError] for a payload its schema accepts:
    delete person on a group that is not in the store. *)
Lemma absent_group_error_propagates :
  let w := Scenario.start Scenario.scripted ([], []) in
  schema_accepts (host := Scenario.scripted) (DeletePerson "Alice" "family") /\
  handle Scenario.face (DeletePerson "Alice" "family") w
    = (Raise (KeyError (PStr "family")), w).
Proof.
  intros w. split; [|reflexivity].
  split; [discriminate|]. by exists "Family".
Qed.

(** Create group against a remote that refuses: logged, swallowed. *)
Lemma service_errors_logged_and_swallowed_witness :
  let w := Scenario.start Scenario.scripted
             ([Scenario.failed 409 "Person group 'family' already exists."], []) in
  fst (handle Scenario.face (CreateGroup "Family") w) = Return tt /\
  last (trace (snd (handle Scenario.face (CreateGroup "Family") w)))
    = Some (EvLog Error "Can't create group '%s' with error: %s"
              [PStr "family"; PStr "Person group 'family' already exists."]).
Proof.
  intros w.
  destruct (service_errors_logged_and_swallowed (host := Scenario.scripted)
              Scenario.face (CreateGroup "Family") w) as (_ & Hlog & _).
  rewrite (Hlog (PStr "family") w
             (PStr "Person group 'family' already exists.")
             (snd (work Scenario.face (CreateGroup "Family") (PStr "family") w))
             eq_refl eq_refl).
  split; reflexivity.
Defined.


(** Create group [Family], then delete it. *)
Lemma create_then_delete_group_witness :
  let w := Scenario.start Scenario.scripted
             ([Scenario.ok PNone; Scenario.ok PNone], []) in
  store (snd (async_create_group Scenario.face "Family" w)) !! KStr "family"
    = Some ∅ /\
  store (snd (async_delete_group Scenario.face "Family"
                (snd (async_create_group Scenario.face "Family" w))))
    !! KStr "family" = None.
Proof.
  intros w. split; [reflexivity|].
  exact (proj2 (proj2 (create_then_delete_group (host := Scenario.scripted)
                         Scenario.face "Family" w PNone PNone eq_refl eq_refl))).
Defined.

(** The request delete person issues for an unknown name ends in
    [None]; no request for a path ending in [not found] is made. *)
Lemma delete_unknown_person_path :
  let w := Scenario.family_world Scenario.scripted ∅
             ([Scenario.failed 404 "Person is not found."], []) in
  let issued :=
    List.map req_url (sent (snd (async_delete_person Scenario.face "Alice" "family" w))) in
  store w !! KStr "family" = Some ∅ /\
  issued = ["https://westus.api.cognitive.microsoft.com/face/v1.0/persongroups/family/persons/None"] /\
  ~ In "https://westus.api.cognitive.microsoft.com/face/v1.0/persongroups/family/persons/not found"
      issued.
Proof.
  intros w issued. split; [reflexivity|]. split; [reflexivity|].
  intros [Heq|[]]. discriminate Heq.
Qed.

(** Delete person for a name the group does not hold: one DELETE goes
    out. *)
Lemma delete_unknown_person_calls_remote_witness :
  let w := Scenario.family_world Scenario.scripted ∅
             ([Scenario.failed 404 "Person is not found."], []) in
  exists r,
    req_method r = "delete" /\
    sent (snd (async_delete_person Scenario.face "Alice" "family" w)) = [r].
Proof.
  intros w.
  destruct (delete_unknown_person_calls_remote (host := Scenario.scripted)
              Scenario.face "Alice" "family" w ∅ eq_refl eq_refl)
    as (r & Hr & Hsent).
  exists r. split; [|exact Hsent].
  injection Hr as <-. reflexivity.
Defined.

(** The view of group [family] holding [Alice]. *)
Lemma entity_view_reads_store_witness :
  let w := Scenario.family_world Scenario.scripted
             {[KStr "Alice" := PStr "abc123"]} ([], []) in
  fst (state Scenario.family_entity w) = Return 1%nat /\
  fst (device_state_attributes Scenario.family_entity w)
    = Return {[KStr "Alice" := PStr "abc123"]}.
Proof.
  intros w.
  destruct (entity_view_reads_store (host := Scenario.scripted)
              Scenario.family_entity (KStr "family")
              {[KStr "Alice" := PStr "abc123"]} w eq_refl eq_refl)
    as [Hstate Hattr].
  rewrite Hstate, Hattr. split; reflexivity.
Defined.

(** Create group on a name whose group already mirrors [Alice]. *)
Lemma create_group_resets_mapping_witness :
  let w := Scenario.family_world Scenario.scripted
             {[KStr "Alice" := PStr "abc123"]} ([Scenario.ok PNone], []) in
  store w !! KStr "family" = Some {[KStr "Alice" := PStr "abc123"]} /\
  store (snd (async_create_group Scenario.face "Family" w)) !! KStr "family"
    = Some ∅.
Proof.
  intros w. split; [reflexivity|].
  exact (proj2 (proj2 (create_group_resets_mapping (host := Scenario.scripted)
                         Scenario.face "Family" w PNone
                         {[KStr "Alice" := PStr "abc123"]} eq_refl eq_refl))).
Defined.


(** * Further properties of the client *)

Section Further.
Context `{host : Host}.
Variable face : MicrosoftFace.

(** ** More on [call_api] *)

(** X1: a response of status below 300 whose body parses makes
    [call_api] return exactly the parsed body. *)
Theorem call_api_returns_answer method function data binary params w r status rurl answer e' :
  build_request face method function data binary params = Return r ->
  http r (outside w) = (Response status rurl (Return answer), e') ->
  status < 300 ->
  fst (call_api face method function data binary params w) = Return answer /\
  outside (snd (call_api face method function data binary params w)) = e'.
Proof.
  intros Hr Hhttp Hlt. apply Z.ltb_lt in Hlt.
  unfold call_api, bind, lift, send, log, ret. rewrite Hr, Hhttp, Hlt. done.
Qed.

(** X2: a connection failure, whether the request itself or the
    reading of the body raises [ClientError], leaves [call_api] as the
    fixed network error, after a warning has been logged. *)
Theorem call_api_connection_error method function data binary params w r e' :
  build_request face method function data binary params = Return r ->
  (http r (outside w) = (NoResponse ClientError, e') \/
   exists status rurl,
     http r (outside w) = (Response status rurl (Raise ClientError), e')) ->
  fst (call_api face method function data binary params w)
    = Raise (HomeAssistantError (PStr "Network error on microsoft face api.")) /\
  last (trace (snd (call_api face method function data binary params w)))
    = Some (EvLog Warning "Can't connect to microsoft face api" []).
Proof.
  intros Hr Hhttp.
  unfold call_api, bind, lift, send, log, ret. rewrite Hr.
  destruct Hhttp as [Hhttp|(status & rurl & Hhttp)]; rewrite Hhttp; simpl;
    (split; [done|]); by rewrite last_snoc.
Qed.

(** X3: whatever the outcome, a call whose request can be built puts
    exactly that one request on the wire, addressed to the server URL
    followed by the resource path, with the subscription key and the
    content type of the binary flag, and leaves the store and the
    entity registry alone. *)
Theorem call_api_sends_one_request method function data binary params w r :
  build_request face method function data binary params = Return r ->
  sent (snd (call_api face method function data binary params w))
    = (sent w ++ [r])%list /\
  req_method r = method /\
  req_url r = server_url face ++ function /\
  req_headers r = [("Ocp-Apim-Subscription-Key", api_key face);
                   ("Content-Type", if binary then "application/octet-stream"
                                    else "application/json")] /\
  store (snd (call_api face method function data binary params w)) = store w /\
  entities (snd (call_api face method function data binary params w)) = entities w.
Proof.
  intros Hr. split; [by apply call_api_sent|].
  destruct (call_api_frame face method function data binary params w) as [Hs He].
  unfold build_request in Hr.
  destruct (encode_payload data binary); [|done]. injection Hr as <-.
  by destruct binary.
Qed.

(** ** Person life cycle *)

Lemma call_api_inv method function data binary params w r w1 :
  call_api face method function data binary params w = (r, w1) ->
  store w1 = store w /\ entities w1 = entities w.
Proof.
  intros Hcall.
  destruct (call_api_frame face method function data binary params w) as [Hs He].
  by rewrite Hcall in Hs, He.
Qed.

Lemma consistent_entity w k m :
  registry_consistent w -> store w !! k = Some m ->
  exists e, entities w !! k = Some e /\ py_hash (ent_id e) = Some k.
Proof.
  intros [Hdom Hid] Hm.
  destruct (proj1 (Hdom k) (mk_is_Some _ _ Hm)) as [e He].
  exists e. split; [done|]. by apply Hid.
Qed.

(** What create person does once its remote call has returned an
    answer carrying [personId], the group being mirrored. *)
Lemma async_create_person_success name g w m e user_data w1 p_id :
  store w !! KStr g = Some m ->
  entities w !! KStr g = Some e ->
  py_hash (ent_id e) = Some (KStr g) ->
  call_api face "post" ("persongroups/" ++ g ++ "/persons")
    (Some (DataJson (PDict [("name", PStr name)]))) false None w
    = (Return user_data, w1) ->
  py_getitem user_data "personId" = Return p_id ->
  async_create_person face name g w
    = (Return tt,
       emit (EvStateSet (entity_id e) (size (<[KStr name := p_id]> m))
               (<[KStr name := p_id]> m))
         (with_store (<[KStr g := <[KStr name := p_id]> m]> (store w)) w1)).
Proof.
  intros Hm He Hid Hcall Hpid.
  destruct (call_api_inv _ _ _ _ _ _ _ _ Hcall) as [Hs1 He1].
  unfold async_create_person.
  rewrite (try_except_HA_bind_Return _ _ _ _ _ _ Hcall).
  unfold try_except_HA, bind, lift, store_get, dict_setitem, store_set,
    entities_get. simpl.
  rewrite Hpid, Hs1, Hm. simpl. rewrite He1, He.
  rewrite (async_update_ha_state_present e (KStr g) (<[KStr name := p_id]> m));
    [by rewrite Hs1|done|]. simpl. apply lookup_insert_eq.
Qed.

(** What delete person does once its remote call has succeeded, the
    person being mirrored. *)
Lemma async_delete_person_success name g w m e p_id answer w1 :
  store w !! KStr g = Some m ->
  m !! KStr name = Some p_id ->
  entities w !! KStr g = Some e ->
  py_hash (ent_id e) = Some (KStr g) ->
  call_api face "delete"
    ("persongroups/" ++ g ++ "/persons/" ++ py_str p_id) None false None w
    = (Return answer, w1) ->
  async_delete_person face name g w
    = (Return tt,
       emit (EvStateSet (entity_id e) (size (delete (KStr name) m))
               (delete (KStr name) m))
         (with_store (<[KStr g := delete (KStr name) m]> (store w)) w1)).
Proof.
  intros Hm Hname He Hid Hcall.
  destruct (call_api_inv _ _ _ _ _ _ _ _ Hcall) as [Hs1 He1].
  unfold async_delete_person.
  assert (Hres : store_get_person (PStr g) (PStr name) w = (Return p_id, w)).
  { unfold store_get_person, bind, store_get, ret. simpl.
    by rewrite Hm, Hname. }
  rewrite (bind_Return _ _ _ _ _ Hres).
  rewrite (try_except_HA_bind_Return _ _ _ _ _ _ Hcall).
  unfold try_except_HA, bind, store_pop_person, bind, store_get, store_set,
    entities_get, ret. simpl.
  rewrite Hs1, Hm, Hname. simpl. rewrite He1, He.
  rewrite (async_update_ha_state_present e (KStr g) (delete (KStr name) m));
    [by rewrite Hs1|done|]. simpl. apply lookup_insert_eq.
Qed.

(** X4: create person on a mirrored group whose remote call returns
    [personId] completes, files the identifier under the name in that
    group's mapping, keeps the other names of the group and the other
    groups as they were, and refreshes the group's entity view with the
    new count. *)
Theorem create_person_records_identifier name g w m user_data w1 p_id :
  registry_consistent w ->
  store w !! KStr g = Some m ->
  call_api face "post" ("persongroups/" ++ g ++ "/persons")
    (Some (DataJson (PDict [("name", PStr name)]))) false None w
    = (Return user_data, w1) ->
  py_getitem user_data "personId" = Return p_id ->
  fst (async_create_person face name g w) = Return tt /\
  (exists m',
     store (snd (async_create_person face name g w)) !! KStr g = Some m' /\
     m' !! KStr name = Some p_id /\
     (forall other, other <> KStr name -> m' !! other = m !! other) /\
     exists eid,
       last (trace (snd (async_create_person face name g w)))
         = Some (EvStateSet eid (size m') m')) /\
  (forall k, k <> KStr g ->
     store (snd (async_create_person face name g w)) !! k = store w !! k).
Proof.
  intros Hcons Hm Hcall Hpid.
  destruct (consistent_entity _ _ _ Hcons Hm) as (e & He & Hid).
  rewrite (async_create_person_success _ _ _ _ _ _ _ _ Hm He Hid Hcall Hpid).
  simpl. split; [done|]. split.
  - exists (<[KStr name := p_id]> m). rewrite !lookup_insert_eq.
    split; [done|]. split; [done|]. split.
    + intros other Hne. by rewrite lookup_insert_ne.
    + exists (entity_id e). by rewrite last_snoc.
  - intros k Hne. by rewrite lookup_insert_ne.
Qed.

(** X5: delete person for a mirrored person whose remote call succeeds
    completes, removes exactly that name from the group's mapping,
    keeps the other groups, and refreshes the entity view with the new
    count. *)
Theorem delete_person_removes_name name g w m p_id answer w1 :
  registry_consistent w ->
  store w !! KStr g = Some m ->
  m !! KStr name = Some p_id ->
  call_api face "delete"
    ("persongroups/" ++ g ++ "/persons/" ++ py_str p_id) None false None w
    = (Return answer, w1) ->
  fst (async_delete_person face name g w) = Return tt /\
  (exists m',
     store (snd (async_delete_person face name g w)) !! KStr g = Some m' /\
     m' !! KStr name = None /\
     (forall other, other <> KStr name -> m' !! other = m !! other) /\
     exists eid,
       last (trace (snd (async_delete_person face name g w)))
         = Some (EvStateSet eid (size m') m')) /\
  (forall k, k <> KStr g ->
     store (snd (async_delete_person face name g w)) !! k = store w !! k).
Proof.
  intros Hcons Hm Hname Hcall.
  destruct (consistent_entity _ _ _ Hcons Hm) as (e & He & Hid).
  rewrite (async_delete_person_success _ _ _ _ _ _ _ _ Hm Hname He Hid Hcall).
  simpl. split; [done|]. split.
  - exists (delete (KStr name) m). rewrite lookup_insert_eq, lookup_delete_eq.
    split; [done|]. split; [done|]. split.
    + intros other Hne. by rewrite lookup_delete_ne.
    + exists (entity_id e). by rewrite last_snoc.
  - intros k Hne. by rewrite lookup_insert_ne.
Qed.

(** X6: creating a person under a name the group does not hold and
    then deleting that person, both remote calls succeeding, brings the
    store back to what it was. *)
Theorem create_then_delete_person name g w m user_data p_id answer :
  registry_consistent w ->
  store w !! KStr g = Some m ->
  m !! KStr name = None ->
  fst (call_api face "post" ("persongroups/" ++ g ++ "/persons")
         (Some (DataJson (PDict [("name", PStr name)]))) false None w)
    = Return user_data ->
  py_getitem user_data "personId" = Return p_id ->
  fst (call_api face "delete"
         ("persongroups/" ++ g ++ "/persons/" ++ py_str p_id) None false None
         (snd (async_create_person face name g w)))
    = Return answer ->
  fst (async_delete_person face name g (snd (async_create_person face name g w)))
    = Return tt /\
  store (snd (async_delete_person face name g
                (snd (async_create_person face name g w))))
    = store w.
Proof.
  intros Hcons Hm Hname Hpost Hpid Hdel.
  destruct (consistent_entity _ _ _ Hcons Hm) as (e & He & Hid).
  destruct (call_api face "post" ("persongroups/" ++ g ++ "/persons")
              (Some (DataJson (PDict [("name", PStr name)]))) false None w)
    as [r1 w1] eqn:Hcall1.
  simpl in Hpost. subst r1.
  destruct (call_api_inv _ _ _ _ _ _ _ _ Hcall1) as [Hs1 He1].
  rewrite (async_create_person_success _ _ _ _ _ _ _ _ Hm He Hid Hcall1 Hpid)
    in *. simpl in *.
  match type of Hdel with
  | fst (call_api _ _ _ _ _ _ ?w2) = _ =>
      destruct (call_api face "delete"
                  ("persongroups/" ++ g ++ "/persons/" ++ py_str p_id)
                  None false None w2) as [r2 w3] eqn:Hcall2
  end.
  simpl in Hdel. subst r2.
  erewrite async_delete_person_success; [| | |by rewrite <- He1 in He|done|done].
  - simpl. split; [done|].
    rewrite insert_insert_eq, delete_insert_id by done. by apply insert_id.
  - simpl. apply lookup_insert_eq.
  - apply lookup_insert_eq.
Qed.

(** X7: create person on a group that is absent from the store still
    performs the remote call; when that call succeeds the handler ends
    in [KeyError] for the group, leaving the store without the person
    the remote service now holds. *)
Theorem create_person_absent_group name g w user_data w1 p_id :
  store w !! KStr g = None ->
  call_api face "post" ("persongroups/" ++ g ++ "/persons")
    (Some (DataJson (PDict [("name", PStr name)]))) false None w
    = (Return user_data, w1) ->
  py_getitem user_data "personId" = Return p_id ->
  async_create_person face name g w = (Raise (KeyError (PStr g)), w1) /\
  store w1 = store w.
Proof.
  intros Hg Hcall Hpid.
  destruct (call_api_inv _ _ _ _ _ _ _ _ Hcall) as [Hs1 He1].
  split; [|done]. unfold async_create_person.
  rewrite (try_except_HA_bind_Return _ _ _ _ _ _ Hcall).
  unfold try_except_HA, bind, lift, store_get. simpl.
  by rewrite Hpid, Hs1, Hg.
Qed.

(** X8: delete group on a name whose group is absent from the store
    still performs the remote call; when that call succeeds the handler
    ends in [KeyError] and nothing local changes. *)
Theorem delete_group_absent_locally name w answer w1 :
  store w !! KStr (slugify name) = None ->
  call_api face "delete" ("persongroups/" ++ slugify name) None false None w
    = (Return answer, w1) ->
  async_delete_group face name w = (Raise (KeyError (PStr (slugify name))), w1) /\
  store w1 = store w /\ entities w1 = entities w.
Proof.
  intros Hg Hcall.
  destruct (call_api_inv _ _ _ _ _ _ _ _ Hcall) as [Hs1 He1].
  split; [|done]. unfold async_delete_group.
  rewrite (try_except_HA_bind_Return _ _ _ _ _ _ Hcall).
  unfold try_except_HA, bind, store_pop. simpl.
  by rewrite Hs1, Hg.
Qed.

(** ** What a handler leaves alone *)

Lemma preserves_registry_intro {A} (m : M A) :
  (forall w, store (snd (m w)) = store w /\ entities (snd (m w)) = entities w) ->
  preserves registry m.
Proof. intros Hm w. unfold registry. by destruct (Hm w) as [-> ->]. Qed.

Lemma preserves_registry_call_api method function data binary params :
  preserves registry (call_api face method function data binary params).
Proof. apply preserves_registry_intro. intros w. apply call_api_frame. Qed.

Lemma preserves_registry_log lvl fmt args : preserves registry (log lvl fmt args).
Proof. done. Qed.

Lemma preserves_registry_camera cam :
  preserves registry (camera_async_get_image cam).
Proof.
  intros w. unfold camera_async_get_image.
  by destruct (camera_get_image cam (outside w)).
Qed.

Lemma preserves_registry_async_update_ha_state e :
  preserves registry (async_update_ha_state e).
Proof.
  unfold async_update_ha_state, state, device_state_attributes.
  repeat (apply preserves_bind; [try apply preserves_store_get|intros ?]);
    try apply preserves_ret.
  done.
Qed.

Lemma preserves_registry_states_async_remove eid :
  preserves registry (states_async_remove eid).
Proof. done. Qed.

Lemma preserves_registry_lookup {A} (m : M A) k :
  preserves registry m -> preserves (fun w => store w !! k) m.
Proof. intros Hm w. specialize (Hm w). unfold registry in Hm. congruence. Qed.

Lemma preserves_registry_sent_free {A} (m : M A) :
  preserves registry m -> preserves store m.
Proof. intros Hm w. specialize (Hm w). unfold registry in Hm. congruence. Qed.

Section OtherGroups.
Variable k : pykey.

Lemma lookup_store_set g v :
  py_hash g <> Some k -> preserves (fun w => store w !! k) (store_set g v).
Proof.
  intros Hne w. unfold store_set.
  destruct (py_hash g) as [key|]; [|done]. simpl.
  apply lookup_insert_ne. congruence.
Qed.

Lemma lookup_store_pop g :
  py_hash g <> Some k -> preserves (fun w => store w !! k) (store_pop g).
Proof.
  intros Hne w. unfold store_pop.
  destruct (py_hash g) as [key|]; [|done].
  destruct (store w !! key); [|done]. simpl.
  apply lookup_delete_ne. congruence.
Qed.

Lemma lookup_entities_set g e :
  preserves (fun w => store w !! k) (entities_set g e).
Proof. intros w. unfold entities_set. by destruct (py_hash g). Qed.

Lemma lookup_entities_pop g :
  preserves (fun w => store w !! k) (entities_pop g).
Proof.
  intros w. unfold entities_pop. destruct (py_hash g) as [key|]; [|done].
  by destruct (entities w !! key).
Qed.

Lemma lookup_dict_setitem g d name v :
  py_hash g <> Some k -> preserves (fun w => store w !! k) (dict_setitem g d name v).
Proof.
  intros Hne. unfold dict_setitem. destruct (py_hash name); [|done].
  by apply lookup_store_set.
Qed.

Lemma lookup_store_pop_person g name :
  py_hash g <> Some k -> preserves (fun w => store w !! k) (store_pop_person g name).
Proof.
  intros Hne. apply preserves_bind; [apply preserves_store_get|intros m].
  destruct (py_hash name) as [key|]; [|done]. destruct (m !! key); [|done].
  apply preserves_bind; [by apply lookup_store_set|done].
Qed.

Lemma lookup_tail g :
  preserves (fun w => store w !! k)
    (let! e := entities_get g in async_update_ha_state e).
Proof.
  apply preserves_bind; [apply preserves_entities_get|intros e].
  apply preserves_registry_lookup, preserves_registry_async_update_ha_state.
Qed.

End OtherGroups.

(** X10: a service call changes the store at most under the
    identifier of its own group; the mapping of every other group, and
    the absence of every other key, is as before, however the call
    ends. *)
Theorem handlers_touch_only_their_group c w k :
  k <> KStr (command_group c) ->
  store (snd (handle face c w)) !! k = store w !! k.
Proof.
  intros Hne. revert w.
  change (preserves (fun w => store w !! k) (handle face c)).
  assert (Hk : py_hash (PStr (command_group c)) <> Some k) by (simpl; congruence).
  assert (Hlog : forall fmt args,
            preserves (fun w => store w !! k) (log Error fmt args)) by done.
  assert (Hcall : forall method function data binary,
            preserves (fun w => store w !! k)
              (call_api face method function data binary None)).
  { intros. apply preserves_registry_lookup, preserves_registry_call_api. }
  destruct c as [name|name|g|name g|name g|person g cam]; simpl in Hk;
    simpl; unfold async_create_group, async_delete_group, async_train_group,
             async_create_person, async_delete_person, async_face_person.
  - apply preserves_try; [|done].
    apply preserves_bind; [done|intros _].
    apply preserves_bind; [by apply lookup_store_set|intros _].
    apply preserves_bind; [apply lookup_entities_set|intros _].
    apply lookup_tail.
  - apply preserves_try; [|done].
    apply preserves_bind; [done|intros _].
    apply preserves_bind; [by apply lookup_store_pop|intros _].
    apply preserves_bind; [apply lookup_entities_pop|intros e]. done.
  - apply preserves_try; [|done].
    apply preserves_bind; [done|intros _]. done.
  - apply preserves_try; [|done].
    apply preserves_bind; [done|intros user_data].
    apply preserves_bind; [done|intros p_id].
    apply preserves_bind; [apply preserves_store_get|intros d].
    apply preserves_bind; [by apply lookup_dict_setitem|intros _].
    apply lookup_tail.
  - apply preserves_bind; [apply preserves_store_get_person|intros p_id].
    apply preserves_try; [|done].
    apply preserves_bind; [done|intros _].
    apply preserves_bind; [by apply lookup_store_pop_person|intros _].
    apply lookup_tail.
  - apply preserves_bind; [apply preserves_store_get_person|intros p_id].
    apply preserves_try; [|done].
    apply preserves_bind;
      [apply preserves_registry_lookup, preserves_registry_camera|intros image].
    apply preserves_bind; [done|intros _]. done.
Qed.

(** ** The store and the registry stay in step *)

Lemma keeps_bind {A B} (I : world -> Prop) (m : M A) (f : A -> M B) :
  keeps I m -> (forall a, keeps I (f a)) -> keeps I (bind m f).
Proof.
  intros Hm Hf w HI. unfold bind. specialize (Hm w HI).
  destruct (m w) as [[a|e] w1]; simpl in *; [|done]. by apply Hf.
Qed.

Lemma keeps_try {A} (I : world -> Prop) (body : M A) handler :
  keeps I body -> (forall err, keeps I (handler err)) ->
  keeps I (try_except_HA body handler).
Proof.
  intros Hb Hh w HI. unfold try_except_HA. specialize (Hb w HI).
  destruct (body w) as [[a|e] w1]; simpl in *; [done|].
  destruct e; try done. by apply Hh.
Qed.

Lemma keeps_of_preserves {A} (m : M A) :
  preserves registry m -> keeps registry_consistent m.
Proof.
  intros Hm w HI. specialize (Hm w). unfold registry in Hm.
  injection Hm as Hs He. unfold registry_consistent in *.
  by rewrite Hs, He.
Qed.

Lemma consistent_update w k m m' :
  registry_consistent w -> store w !! k = Some m ->
  registry_consistent (with_store (<[k := m']> (store w)) w).
Proof.
  intros [Hdom Hid] Hm. split; [|done]. intros k'. simpl.
  rewrite lookup_insert_is_Some. rewrite <- Hdom. split.
  - intros [<-|[_ ?]]; [by eexists|done].
  - intros Hk'. destruct (decide (k = k')); [by left|by right].
Qed.

Lemma consistent_create w g n :
  registry_consistent w ->
  registry_consistent
    (with_entities (<[KStr g := Entity (PStr g) n]> (entities w))
       (with_store (<[KStr g := ∅]> (store w)) w)).
Proof.
  intros [Hdom Hid]. split; simpl.
  - intros k. rewrite !lookup_insert_is_Some. by rewrite Hdom.
  - intros k e. destruct (decide (KStr g = k)) as [<-|Hne].
    + rewrite lookup_insert_eq. by intros [= <-].
    + rewrite lookup_insert_ne by done. apply Hid.
Qed.

Lemma consistent_delete w k :
  registry_consistent w ->
  registry_consistent
    (with_entities (delete k (entities w)) (with_store (delete k (store w)) w)).
Proof.
  intros [Hdom Hid]. split; simpl.
  - intros k'. rewrite !lookup_delete_is_Some. by rewrite Hdom.
  - intros k' e. destruct (decide (k = k')) as [<-|Hne].
    + by rewrite lookup_delete_eq.
    + rewrite lookup_delete_ne by done. apply Hid.
Qed.

Lemma keeps_tail g :
  keeps registry_consistent
    (let! e := entities_get g in async_update_ha_state e).
Proof.
  apply keeps_of_preserves.
  apply preserves_bind; [apply preserves_entities_get|intros e].
  apply preserves_registry_async_update_ha_state.
Qed.

Lemma keeps_call_api method function data binary params :
  keeps registry_consistent (call_api face method function data binary params).
Proof. apply keeps_of_preserves, preserves_registry_call_api. Qed.

Lemma keeps_handle c : keeps registry_consistent (handle face c).
Proof.
  assert (Hlog : forall fmt args,
            keeps registry_consistent (log Error fmt args)).
  { intros. by apply keeps_of_preserves. }
  destruct c as [name|name|g|name g|name g|person g cam]; simpl;
    unfold async_create_group, async_delete_group, async_train_group,
      async_create_person, async_delete_person, async_face_person.
  - apply keeps_try; [|done].
    apply keeps_bind; [apply keeps_call_api|intros _].
    intros w HI. unfold bind at 1 2. unfold store_set, entities_set. simpl.
    apply keeps_tail. by apply consistent_create.
  - apply keeps_try; [|done].
    apply keeps_bind; [apply keeps_call_api|intros _].
    intros w HI. unfold bind, store_pop, entities_pop, states_async_remove.
    simpl. destruct (store w !! KStr (slugify name)) as [m|] eqn:Hm; [|done].
    simpl. destruct (consistent_entity _ _ _ HI Hm) as (e & He & _).
    rewrite He. simpl. by apply (consistent_delete w).
  - apply keeps_try; [|done].
    apply keeps_bind; [apply keeps_call_api|intros _].
    by apply keeps_of_preserves.
  - apply keeps_try; [|done].
    apply keeps_bind; [apply keeps_call_api|intros user_data].
    apply keeps_bind; [by apply keeps_of_preserves|intros p_id].
    intros w HI. unfold bind at 1 2. unfold store_get, dict_setitem, store_set.
    simpl. destruct (store w !! KStr g) as [m|] eqn:Hm; [|done].
    apply keeps_tail. by eapply consistent_update.
  - apply keeps_bind;
      [apply keeps_of_preserves, preserves_store_get_person|intros p_id].
    apply keeps_try; [|done].
    apply keeps_bind; [apply keeps_call_api|intros _].
    intros w HI. unfold bind at 1. unfold store_pop_person, bind at 1.
    unfold store_get. simpl.
    destruct (store w !! KStr g) as [m|] eqn:Hm; [|done].
    destruct (m !! KStr name); [|done].
    unfold bind, store_set, ret. simpl.
    apply keeps_tail. by eapply consistent_update.
  - apply keeps_bind;
      [apply keeps_of_preserves, preserves_store_get_person|intros p_id].
    apply keeps_try; [|done].
    apply keeps_bind;
      [apply keeps_of_preserves, preserves_registry_camera|intros image].
    apply keeps_bind; [apply keeps_call_api|intros _].
    by apply keeps_of_preserves.
Qed.

(** X9: the store and the entity registry stay in step under every
    sequence of service calls, whatever the remote service answers and
    however the single calls end: a group is in the store exactly when
    it has an entity, and that entity is the view of that group. *)
Theorem services_keep_registry_consistent cs w :
  registry_consistent w -> registry_consistent (dispatch_all face cs w).
Proof.
  revert w. induction cs as [|c cs IH]; intros w HI; simpl; [done|].
  apply IH. by apply keeps_handle.
Qed.

(** ** One service call, at most one request *)

Lemma amo_of_preserves {A} (m : M A) :
  preserves sent m -> at_most_one_request m.
Proof.
  intros Hm w. exists []. rewrite Hm, app_nil_r. split; [done|simpl; lia].
Qed.

Lemma amo_bind_l {A B} (m : M A) (f : A -> M B) :
  preserves sent m -> (forall a, at_most_one_request (f a)) ->
  at_most_one_request (bind m f).
Proof.
  intros Hm Hf w. unfold bind. specialize (Hm w).
  destruct (m w) as [[a|e] w1]; simpl in *.
  - destruct (Hf a w1) as (l & Hl & Hlen). exists l. by rewrite Hl, Hm.
  - exists []. rewrite Hm, app_nil_r. split; [done|simpl; lia].
Qed.

Lemma amo_bind_r {A B} (m : M A) (f : A -> M B) :
  at_most_one_request m -> (forall a, preserves sent (f a)) ->
  at_most_one_request (bind m f).
Proof.
  intros Hm Hf w. unfold bind. destruct (Hm w) as (l & Hl & Hlen).
  destruct (m w) as [[a|e] w1]; simpl in *; exists l; [|done].
  by rewrite Hf.
Qed.

Lemma amo_try {A} (body : M A) handler :
  at_most_one_request body -> (forall err, preserves sent (handler err)) ->
  at_most_one_request (try_except_HA body handler).
Proof.
  intros Hb Hh w. unfold try_except_HA. destruct (Hb w) as (l & Hl & Hlen).
  destruct (body w) as [[a|e] w1]; simpl in *; exists l; [done|].
  destruct e; try done. by rewrite Hh.
Qed.

Lemma amo_call_api method function data binary params :
  at_most_one_request (call_api face method function data binary params).
Proof.
  intros w.
  destruct (build_request face method function data binary params) as [r|e] eqn:Hr.
  - exists [r]. split; [by apply call_api_sent|simpl; lia].
  - exists []. unfold call_api, bind, lift. rewrite Hr. simpl.
    rewrite app_nil_r. split; [done|lia].
Qed.

Lemma preserves_sent_store_pop g : preserves sent (store_pop g).
Proof.
  intros w. unfold store_pop. destruct (py_hash g) as [key|]; [|done].
  by destruct (store w !! key).
Qed.

Lemma preserves_sent_entities_set g e : preserves sent (entities_set g e).
Proof. intros w. unfold entities_set. by destruct (py_hash g). Qed.

Lemma preserves_sent_entities_pop g : preserves sent (entities_pop g).
Proof.
  intros w. unfold entities_pop. destruct (py_hash g) as [key|]; [|done].
  by destruct (entities w !! key).
Qed.

Lemma preserves_sent_states_async_remove eid :
  preserves sent (states_async_remove eid).
Proof.
  intros w. unfold states_async_remove. simpl. rewrite sent_emit.
  apply app_nil_r.
Qed.

Lemma preserves_sent_camera cam : preserves sent (camera_async_get_image cam).
Proof.
  intros w. unfold camera_async_get_image.
  by destruct (camera_get_image cam (outside w)).
Qed.

Lemma preserves_sent_tail g :
  preserves sent (let! e := entities_get g in async_update_ha_state e).
Proof.
  apply preserves_bind; [apply preserves_entities_get|intros e].
  apply preserves_async_update_ha_state_sent.
Qed.

(** X11: a service call puts at most one request on the wire,
    however it ends: no handler retries or follows up a remote call. *)
Theorem handlers_send_at_most_one_request c w :
  exists l,
    sent (snd (handle face c w)) = (sent w ++ l)%list /\ (length l <= 1)%nat.
Proof.
  revert w. change (at_most_one_request (handle face c)).
  assert (Hlog : forall fmt args, preserves sent (log Error fmt args))
    by (intros; apply preserves_log_sent).
  destruct c as [name|name|g|name g|name g|person g cam]; simpl;
    unfold async_create_group, async_delete_group, async_train_group,
      async_create_person, async_delete_person, async_face_person.
  - apply amo_try; [|done]. apply amo_bind_r; [apply amo_call_api|intros _].
    apply preserves_bind; [apply preserves_store_set_sent|intros _].
    apply preserves_bind; [apply preserves_sent_entities_set|intros _].
    apply preserves_sent_tail.
  - apply amo_try; [|done]. apply amo_bind_r; [apply amo_call_api|intros _].
    apply preserves_bind; [apply preserves_sent_store_pop|intros _].
    apply preserves_bind; [apply preserves_sent_entities_pop|intros e].
    apply preserves_sent_states_async_remove.
  - apply amo_try; [|done]. apply amo_bind_r; [apply amo_call_api|intros _].
    done.
  - apply amo_try; [|done].
    apply amo_bind_r; [apply amo_call_api|intros user_data].
    apply preserves_bind; [done|intros p_id].
    apply preserves_bind; [apply preserves_store_get|intros d].
    apply preserves_bind; [|intros _; apply preserves_sent_tail].
    unfold dict_setitem. destruct (py_hash (PStr name)); [|done].
    apply preserves_store_set_sent.
  - apply amo_bind_l; [apply preserves_store_get_person|intros p_id].
    apply amo_try; [|done]. apply amo_bind_r; [apply amo_call_api|intros _].
    apply preserves_bind; [apply preserves_store_pop_person_sent|intros _].
    apply preserves_sent_tail.
  - apply amo_bind_l; [apply preserves_store_get_person|intros p_id].
    apply amo_try; [|done].
    apply amo_bind_l; [apply preserves_sent_camera|intros image].
    apply amo_bind_r; [apply amo_call_api|intros _]. done.
Qed.

(** ** Attach face *)

(** X12: when the camera cannot deliver an image
    ([HomeAssistantError] from the image capture), attach face logs the
    error and completes without any request to the remote service. *)
Theorem face_person_camera_failure person g cam w m msg e' :
  store w !! KStr g = Some m ->
  camera_get_image cam (outside w) = (Raise (HomeAssistantError msg), e') ->
  fst (async_face_person face person g cam w) = Return tt /\
  sent (snd (async_face_person face person g cam w)) = sent w /\
  last (trace (snd (async_face_person face person g cam w)))
    = Some (EvLog Error "Can't delete person '%s' with error: %s"
              [default PNone (m !! KStr person); msg]).
Proof.
  intros Hm Hcam. unfold async_face_person.
  assert (Hres : store_get_person (PStr g) (PStr person) w
                 = (Return (default PNone (m !! KStr person)), w)).
  { unfold store_get_person, bind, store_get, ret. simpl. by rewrite Hm. }
  rewrite (bind_Return _ _ _ _ _ Hres).
  unfold try_except_HA, bind, camera_async_get_image, log. rewrite Hcam. simpl.
  split; [done|]. split.
  - rewrite sent_emit. apply app_nil_r.
  - by rewrite last_snoc.
Qed.

(** X13: with an image delivered, attach face sends one POST to the
    persisted-faces path of the stored person identifier, carrying the
    raw image bytes under the octet-stream content type. *)
Theorem face_person_posts_image person g cam w m image e' :
  store w !! KStr g = Some m ->
  camera_get_image cam (outside w) = (Return image, e') ->
  sent (snd (async_face_person face person g cam w))
    = (sent w ++
       [Request "post"
          (server_url face ++ "persongroups/" ++ g ++ "/persons/"
             ++ py_str (default PNone (m !! KStr person)) ++ "/persistedFaces")
          (PayloadRaw (DataBytes image))
          [("Ocp-Apim-Subscription-Key", api_key face);
           ("Content-Type", "application/octet-stream")]
          None])%list.
Proof.
  intros Hm Hcam. unfold async_face_person.
  assert (Hres : store_get_person (PStr g) (PStr person) w
                 = (Return (default PNone (m !! KStr person)), w)).
  { unfold store_get_person, bind, store_get, ret. simpl. by rewrite Hm. }
  rewrite (bind_Return _ _ _ _ _ Hres).
  assert (Himg : camera_async_get_image cam w = (Return image, with_outside e' w)).
  { unfold camera_async_get_image. by rewrite Hcam. }
  rewrite (try_except_HA_bind_Return _ _ _ _ _ _ Himg).
  rewrite guarded_sent; [|done|intros; apply preserves_log_sent].
  erewrite call_api_sent; [|reflexivity]. done.
Qed.

(** ** More on the full sync *)

Lemma preserves_bind_lift {A B X} (f : world -> X) (r : result A) (k : A -> M B) :
  (forall a, r = Return a -> preserves f (k a)) ->
  preserves f (bind (lift r) k).
Proof.
  intros Hk w. unfold bind, lift. destruct r as [a|e]; [by apply Hk|done].
Qed.

Lemma lookup_sync_person k g_id person :
  py_hash g_id <> Some k ->
  preserves (fun w => store w !! k) (sync_person g_id person).
Proof.
  intros Hne. unfold sync_person.
  apply preserves_bind; [done|intros p_id].
  apply preserves_bind; [apply preserves_store_get|intros d].
  apply preserves_bind; [done|intros name].
  by apply lookup_dict_setitem.
Qed.

Lemma lookup_sync_group k group :
  (forall g_id, py_getitem group "personGroupId" = Return g_id ->
                py_hash g_id <> Some k) ->
  preserves (fun w => store w !! k) (sync_group face group).
Proof.
  intros Hne. unfold sync_group.
  apply preserves_bind_lift. intros g_id Hgid. specialize (Hne _ Hgid).
  apply preserves_bind; [by apply lookup_store_set|intros _].
  apply preserves_bind; [done|intros name].
  apply preserves_bind; [apply lookup_entities_set|intros _].
  apply preserves_bind;
    [apply preserves_registry_lookup, preserves_registry_call_api|intros persons].
  apply preserves_bind; [done|intros ps].
  apply preserves_bind; [|intros _; apply preserves_entities_get].
  apply preserves_for_each. intros person. by apply lookup_sync_person.
Qed.

Lemma lookup_sync_groups k gs : forall tasks,
  (forall group g_id, group ∈ gs ->
     py_getitem group "personGroupId" = Return g_id -> py_hash g_id <> Some k) ->
  preserves (fun w => store w !! k) (sync_groups face gs tasks).
Proof.
  induction gs as [|group rest IH]; intros tasks Hne; simpl; [done|].
  apply preserves_bind.
  - apply lookup_sync_group. intros g_id. apply Hne, elem_of_cons. by left.
  - intros task. apply IH. intros g g_id Hin. apply Hne, elem_of_cons. by right.
Qed.

Lemma preserves_finish {X} (f : world -> X) (tasks : list entity) :
  (forall e, preserves f (async_update_ha_state e)) ->
  preserves f (match tasks with [] => ret tt | _ => asyncio_wait tasks end).
Proof.
  intros Hup. destruct tasks; [done|]. by apply preserves_asyncio_wait.
Qed.

(** X15: a full sync changes the store only under the keys of the
    groups the remote list names: every other key keeps its mapping, or
    stays absent, so a group that has vanished remotely is not removed
    by a sync; this holds however the sync ends. *)
Theorem update_store_touches_only_listed_groups w k :
  (forall groups w1 gs group g_id,
     call_api face "get" "persongroups" None false None w = (Return groups, w1) ->
     py_iter groups = Return gs ->
     group ∈ gs ->
     py_getitem group "personGroupId" = Return g_id ->
     py_hash g_id <> Some k) ->
  store (snd (update_store face w)) !! k = store w !! k.
Proof.
  intros Hne. unfold update_store. unfold bind at 1.
  destruct (call_api face "get" "persongroups" None false None w)
    as [[groups|e] w1] eqn:Hcall;
    destruct (call_api_inv _ _ _ _ _ _ _ _ Hcall) as [Hs1 _];
    [|by simpl; rewrite Hs1].
  rewrite <- Hs1.
  match goal with
  | |- store (snd (?m w1)) !! k = _ =>
      assert (Hrest : preserves (fun w => store w !! k) m); [|exact (Hrest w1)]
  end.
  apply preserves_bind_lift. intros gs Hgs.
  apply preserves_bind.
  - apply lookup_sync_groups. intros group g_id Hin Hgid.
    by eapply Hne.
  - intros tasks. apply preserves_finish. intros e.
    apply preserves_registry_lookup, preserves_registry_async_update_ha_state.
Qed.

Lemma call_api_unreachable function w :
  unreachable face function ->
  exists w1,
    call_api face "get" function None false None w
      = (Raise (HomeAssistantError (PStr "Network error on microsoft face api.")), w1) /\
    store w1 = store w /\ entities w1 = entities w.
Proof.
  intros Hun. destruct (Hun (outside w)) as (e' & Hhttp).
  unfold get_request in Hhttp.
  unfold call_api, build_request, encode_payload, bind, lift, send, log, ret.
  rewrite Hhttp. simpl. by eexists.
Qed.

(** X14: a sync that fails is not rolled back.  When the group list is
    served but the person list of its first group cannot be reached,
    [update_store] raises the network error and leaves that group in
    the store with an empty mapping, and its entity in the registry. *)
Theorem update_store_keeps_partial_population w groups group rest g_id k name :
  answers face "persongroups" groups ->
  py_iter groups = Return (group :: rest) ->
  py_getitem group "personGroupId" = Return g_id ->
  py_hash g_id = Some k ->
  py_getitem group "name" = Return name ->
  unreachable face (persons_path g_id) ->
  fst (update_store face w)
    = Raise (HomeAssistantError (PStr "Network error on microsoft face api.")) /\
  store (snd (update_store face w)) = <[k := ∅]> (store w) /\
  entities (snd (update_store face w)) = <[k := Entity g_id name]> (entities w).
Proof.
  intros Hans Hiter Hgid Hk Hname Hun.
  destruct (call_api_answered face "persongroups" groups w Hans)
    as (w1 & Hcall & Hs1 & He1 & _).
  unfold update_store. rewrite (bind_Return _ _ _ _ _ Hcall).
  unfold bind, lift. rewrite Hiter. simpl.
  unfold sync_group, bind, lift, store_set, entities_set.
  rewrite Hgid, Hk, Hname. simpl.
  match goal with
  | |- context [call_api face "get" ?p None false None ?w0] =>
      destruct (call_api_unreachable (persons_path g_id) w0 Hun)
        as (w2 & Hcall2 & Hs2 & He2)
  end.
  unfold persons_path in Hcall2 at 1. rewrite Hcall2. simpl.
  rewrite Hs2, He2. simpl. by rewrite Hs1, He1.
Qed.

(** ** The full sync keeps the registry in step *)

Lemma py_getitem_raise v key e msg :
  py_getitem v key = Raise e -> e <> HomeAssistantError msg.
Proof.
  unfold py_getitem. destruct v; try (by intros [= <-]).
  destruct (assoc_get kvs key); [done|by intros [= <-]].
Qed.

Lemma keeps_for_each {A} (I : world -> Prop) (l : list A) (body : A -> M unit) :
  (forall a, keeps I (body a)) -> keeps I (for_each l body).
Proof.
  intros Hb. induction l as [|a l IH]; [by intros w HI|].
  simpl. by apply keeps_bind.
Qed.

Lemma consistent_register w g_id k name :
  registry_consistent w -> py_hash g_id = Some k ->
  registry_consistent
    (with_entities (<[k := Entity g_id name]> (entities w))
       (with_store (<[k := ∅]> (store w)) w)).
Proof.
  intros [Hdom Hid] Hk. split; simpl.
  - intros k'. rewrite !lookup_insert_is_Some. by rewrite Hdom.
  - intros k' e. destruct (decide (k = k')) as [<-|Hne].
    + rewrite lookup_insert_eq. by intros [= <-].
    + rewrite lookup_insert_ne by done. apply Hid.
Qed.

Lemma keeps_sync_person g_id person :
  keeps registry_consistent (sync_person g_id person).
Proof.
  unfold sync_person.
  apply keeps_bind; [by apply keeps_of_preserves|intros p_id].
  intros w HI. unfold bind, store_get, lift, dict_setitem, store_set, raise.
  destruct (py_hash g_id) as [k|]; [|done].
  destruct (store w !! k) as [d|] eqn:Hd; [|done].
  destruct (py_getitem person "name") as [name|]; [|done].
  destruct (py_hash name); [|done]. simpl. by eapply consistent_update.
Qed.

Lemma sync_group_consistent group w r w' :
  registry_consistent w ->
  sync_group face group w = (r, w') ->
  (exists a, r = Return a) \/ (exists msg, r = Raise (HomeAssistantError msg)) ->
  registry_consistent w'.
Proof.
  intros HI Hrun Hok. unfold sync_group in Hrun.
  unfold bind at 1, lift at 1 in Hrun.
  destruct (py_getitem group "personGroupId") as [g_id|e] eqn:Hgid;
    [|by injection Hrun as <- <-].
  unfold bind at 1, store_set at 1 in Hrun.
  destruct (py_hash g_id) as [k|] eqn:Hk; [|by injection Hrun as <- <-].
  unfold bind at 1, lift at 1 in Hrun.
  destruct (py_getitem group "name") as [name|e] eqn:Hname.
  - unfold bind at 1, entities_set at 1 in Hrun. rewrite Hk in Hrun.
    match type of Hrun with
    | ?m ?w4 = _ =>
        assert (Hkeep : keeps registry_consistent m);
          [|specialize (Hkeep w4 (consistent_register _ _ _ name HI Hk));
            by rewrite Hrun in Hkeep]
    end.
    apply keeps_bind; [apply keeps_call_api|intros persons].
    apply keeps_bind; [by apply keeps_of_preserves|intros ps].
    apply keeps_bind.
    + apply keeps_for_each. intros person. apply keeps_sync_person.
    + intros _. apply keeps_of_preserves, preserves_entities_get.
  - injection Hrun as <- <-. exfalso.
    destruct Hok as [[a [=]]|[msg [= ->]]]. by eapply py_getitem_raise.
Qed.

Lemma sync_groups_consistent gs : forall tasks w r w',
  registry_consistent w ->
  sync_groups face gs tasks w = (r, w') ->
  (exists a, r = Return a) \/ (exists msg, r = Raise (HomeAssistantError msg)) ->
  registry_consistent w'.
Proof.
  induction gs as [|group rest IH]; intros tasks w r w' HI Hrun Hok;
    simpl in Hrun.
  - by injection Hrun as <- <-.
  - unfold bind in Hrun.
    destruct (sync_group face group w) as [[task|e] w1] eqn:Hgroup.
    + eapply IH; [|exact Hrun|done].
      eapply sync_group_consistent; [done|exact Hgroup|by eauto].
    + injection Hrun as <- <-.
      destruct Hok as [[a [=]]|[msg [= ->]]].
      eapply sync_group_consistent; [exact HI|exact Hgroup|right; by eexists].
Qed.

Lemma update_store_consistent w r w' :
  registry_consistent w ->
  update_store face w = (r, w') ->
  (exists a, r = Return a) \/ (exists msg, r = Raise (HomeAssistantError msg)) ->
  registry_consistent w'.
Proof.
  intros HI Hrun Hok. unfold update_store in Hrun. unfold bind at 1 in Hrun.
  pose proof (keeps_call_api "get" "persongroups" None false None w HI) as HI1.
  destruct (call_api face "get" "persongroups" None false None w)
    as [[groups|e] w1]; simpl in HI1; [|by injection Hrun as <- <-].
  unfold bind at 1, lift at 1 in Hrun.
  destruct (py_iter groups) as [gs|e]; [|by injection Hrun as <- <-].
  unfold bind at 1 in Hrun.
  destruct (sync_groups face gs [] w1) as [[tasks|e] w2] eqn:Hloop.
  - assert (HI2 : registry_consistent w2).
    { eapply sync_groups_consistent; [done|exact Hloop|by eauto]. }
    assert (Hfin : keeps registry_consistent
              (match tasks with [] => ret tt | _ => asyncio_wait tasks end)).
    { apply keeps_of_preserves, preserves_finish.
      apply preserves_registry_async_update_ha_state. }
    specialize (Hfin w2 HI2). by rewrite Hrun in Hfin.
  - injection Hrun as <- <-.
    destruct Hok as [[a [=]]|[msg [= ->]]].
    eapply sync_groups_consistent; [exact HI1|exact Hloop|right; by eexists].
Qed.

End Further.

(** * Properties of [async_setup] *)

Section SetupProperties.
Context `{host : Host}.

Lemma empty_registry_consistent w :
  registry_consistent (with_entities ∅ (with_store ∅ w)).
Proof.
  split; simpl.
  - intros k. by rewrite !lookup_empty.
  - intros k e. by rewrite lookup_empty.
Qed.

Lemma async_setup_cases region key tmo w :
  async_setup region key tmo w =
    match update_store (MicrosoftFace_init region key tmo)
            (with_entities ∅ (with_store ∅ w)) with
    | (Return _, w1) => (Return (true, SERVICES), w1)
    | (Raise (HomeAssistantError msg), w1) =>
        (Return (false, []),
         emit (EvLog Error "Can't load data from face api: %s" [msg]) w1)
    | (Raise e, w1) => (Raise e, w1)
    end.
Proof.
  unfold async_setup, bind, try_except_HA, log, ret.
  destruct (update_store _ _) as [[[]|[]] w1]; reflexivity.
Qed.

(** X16: whenever [async_setup] returns, the store and the entity
    registry it leaves are in step; it has registered all six services
    when it returns [True] and none when it returns [False], and it
    returns [False] only after logging that the data could not be
    loaded. *)
Theorem async_setup_leaves_consistent_registry region key tmo w b svcs :
  fst (async_setup region key tmo w) = Return (b, svcs) ->
  svcs = (if b then SERVICES else []) /\
  registry_consistent (snd (async_setup region key tmo w)) /\
  (b = false ->
   exists err,
     last (trace (snd (async_setup region key tmo w)))
       = Some (EvLog Error "Can't load data from face api: %s" [err])).
Proof.
  rewrite async_setup_cases.
  pose proof (update_store_consistent (MicrosoftFace_init region key tmo)
                (with_entities ∅ (with_store ∅ w))) as Hcons.
  destruct (update_store (MicrosoftFace_init region key tmo)
              (with_entities ∅ (with_store ∅ w))) as [[[]|e] w1].
  - simpl. intros [= <- <-]. split; [done|]. split; [|intros [=]].
    eapply Hcons; [apply empty_registry_consistent|reflexivity|by eauto].
  - destruct e; try done. simpl. intros [= <- <-]. split; [done|].
    split.
    + assert (HI1 : registry_consistent w1).
      { eapply Hcons; [apply empty_registry_consistent|reflexivity|by eauto]. }
      exact HI1.
    + intros _. exists msg. by rewrite last_snoc.
Qed.

(** X17: when the remote service cannot be reached for the group
    list, [async_setup] returns [False] with no service registered, an
    empty store and registry, and the network error in its log. *)
Theorem async_setup_network_failure region key tmo w :
  unreachable (MicrosoftFace_init region key tmo) "persongroups" ->
  fst (async_setup region key tmo w) = Return (false, []) /\
  store (snd (async_setup region key tmo w)) = ∅ /\
  entities (snd (async_setup region key tmo w)) = ∅ /\
  last (trace (snd (async_setup region key tmo w)))
    = Some (EvLog Error "Can't load data from face api: %s"
              [PStr "Network error on microsoft face api."]).
Proof.
  intros Hun.
  destruct (call_api_unreachable (MicrosoftFace_init region key tmo)
              "persongroups" (with_entities ∅ (with_store ∅ w)) Hun)
    as (w1 & Hcall & Hs & He).
  rewrite async_setup_cases. unfold update_store.
  rewrite (bind_Raise _ _ _ _ _ Hcall). simpl.
  split; [done|]. split; [done|]. split; [done|]. by rewrite last_snoc.
Qed.

End SetupProperties.

(** * Properties of the device tracker *)

Section TrackerProperties.
Context `{host : Host}.
Variable gps : Type.

Lemma seen_app (t1 t2 : list (tracker_event gps)) :
  seen gps (t1 ++ t2) = (seen gps t1 ++ seen gps t2)%list.
Proof. apply omap_app. Qed.

Lemma listening_app (t1 t2 : list (tracker_event gps)) :
  listening gps (t1 ++ t2) = (listening gps t1 ++ listening gps t2)%list.
Proof. apply omap_app. Qed.

Lemma update_seen v t :
  seen gps (update gps v t)
    = (seen gps t ++ if is_vehicle_tracking_enabled gps v
                     then [report gps v] else [])%list.
Proof.
  unfold update. destruct (is_vehicle_tracking_enabled gps v); simpl.
  - rewrite !seen_app. simpl. by rewrite app_nil_r.
  - by rewrite seen_app.
Qed.

Lemma update_listening v t :
  listening gps (update gps v t) = listening gps t.
Proof.
  unfold update. destruct (is_vehicle_tracking_enabled gps v); simpl;
    rewrite !listening_app; simpl; by rewrite ?app_nil_r.
Qed.

(** X18: an update of a tracker reports the vehicle to [see] exactly
    when tracking is enabled in the car, once, under the slug of the
    vehicle name with the name as host name, its position and the car
    icon; with tracking disabled nothing is reported. *)
Theorem update_reports_only_when_tracking v t :
  seen gps (update gps v t)
    = (seen gps t ++ if is_vehicle_tracking_enabled gps v
                     then [report gps v] else [])%list /\
  (is_vehicle_tracking_enabled gps v = true ->
   last (update gps v t)
     = Some (TrSee gps (slugify (vehicle_name gps v)) (vehicle_name gps v)
               (gps_position gps v) "mdi:car")) /\
  (is_vehicle_tracking_enabled gps v = false ->
   update gps v t
     = (t ++ [TrDebug gps "Tracking is disabled for vehicle %s"
                [slugify (vehicle_name gps v)]])%list).
Proof.
  split; [apply update_seen|]. unfold update.
  split; intros ->; simpl; [by rewrite last_snoc|done].
Qed.

Lemma track_vehicles_seen a vs : forall t,
  seen gps (fold_left (track_vehicle gps a) vs t)
    = (seen gps t
       ++ List.map (report gps) (List.filter (is_vehicle_tracking_enabled gps) vs))%list.
Proof.
  induction vs as [|v vs IH]; intros t; simpl; [by rewrite app_nil_r|].
  rewrite IH. unfold track_vehicle. rewrite update_seen, seen_app. simpl.
  rewrite app_nil_r.
  destruct (is_vehicle_tracking_enabled gps v); simpl;
    by rewrite <- ?app_assoc, ?app_nil_r.
Qed.

Lemma track_vehicles_listening a vs : forall t,
  listening gps (fold_left (track_vehicle gps a) vs t)
    = (listening gps t ++ vs)%list.
Proof.
  induction vs as [|v vs IH]; intros t; simpl; [by rewrite app_nil_r|].
  rewrite IH. unfold track_vehicle. rewrite update_listening, listening_app.
  simpl. by rewrite <- app_assoc.
Qed.

Lemma track_accounts_seen accounts : forall t,
  seen gps (fold_left (fun t a => fold_left (track_vehicle gps a)
                                   (account_vehicles gps a) t) accounts t)
    = (seen gps t
       ++ List.map (report gps)
            (List.filter (is_vehicle_tracking_enabled gps)
               (all_vehicles gps accounts)))%list.
Proof.
  unfold all_vehicles.
  induction accounts as [|a accounts IH]; intros t; simpl;
    [by rewrite app_nil_r|].
  rewrite IH, track_vehicles_seen.
  by rewrite List.filter_app, List.map_app, app_assoc.
Qed.

Lemma track_accounts_listening accounts : forall t,
  listening gps (fold_left (fun t a => fold_left (track_vehicle gps a)
                                        (account_vehicles gps a) t) accounts t)
    = (listening gps t ++ all_vehicles gps accounts)%list.
Proof.
  unfold all_vehicles.
  induction accounts as [|a accounts IH]; intros t; simpl;
    [by rewrite app_nil_r|].
  rewrite IH, track_vehicles_listening. by rewrite app_assoc.
Qed.

(** X19: [setup_scanner] always returns [True]; it adds an update
    listener for every vehicle of every account, in order, and reports
    to [see] exactly the vehicles whose tracking is enabled, in that
    same order. *)
Theorem setup_scanner_tracks_every_vehicle accounts t :
  fst (setup_scanner gps accounts t) = true /\
  listening gps (snd (setup_scanner gps accounts t))
    = (listening gps t ++ all_vehicles gps accounts)%list /\
  seen gps (snd (setup_scanner gps accounts t))
    = (seen gps t
       ++ List.map (report gps)
            (List.filter (is_vehicle_tracking_enabled gps)
               (all_vehicles gps accounts)))%list.
Proof.
  unfold setup_scanner. simpl. split; [done|]. split.
  - rewrite track_accounts_listening, listening_app. simpl.
    by rewrite app_nil_r.
  - rewrite track_accounts_seen, seen_app. simpl. by rewrite app_nil_r.
Qed.

End TrackerProperties.

(** * Concrete runs of the further properties *)

Lemma family_world_consistent (H : Host) persons e :
  registry_consistent (Scenario.family_world H persons e).
Proof.
  split; simpl.
  - intros k. destruct (decide (KStr "family" = k)) as [<-|Hne].
    + by rewrite !lookup_singleton_eq.
    + by rewrite !lookup_singleton_ne.
  - intros k e0. destruct (decide (KStr "family" = k)) as [<-|Hne].
    + rewrite lookup_singleton_eq. by intros [= <-].
    + by rewrite lookup_singleton_ne.
Defined.

(** An empty group list, served with status 200. *)
Lemma call_api_returns_answer_witness :
  let w := Scenario.start Scenario.scripted ([Scenario.ok (PList [])], []) in
  200 < 300 /\
  fst (call_api Scenario.face "get" "persongroups" None false None w)
    = Return (PList []).
Proof.
  intros w. split; [lia|].
  refine (proj1 (call_api_returns_answer (host := Scenario.scripted)
                   Scenario.face "get" "persongroups" None false None w
                   _ 200 _ _ _ eq_refl eq_refl _)).
  lia.
Defined.

(** A session that cannot connect. *)
Lemma call_api_connection_error_witness :
  let w := Scenario.start Scenario.scripted ([], []) in
  fst (call_api Scenario.face "get" "persongroups" None false None w)
    = Raise (HomeAssistantError (PStr "Network error on microsoft face api.")).
Proof.
  intros w.
  refine (proj1 (call_api_connection_error (host := Scenario.scripted)
                   Scenario.face "get" "persongroups" None false None w
                   _ _ eq_refl (or_introl eq_refl))).
Defined.

(** A refused call still went out, once. *)
Lemma call_api_sends_one_request_witness :
  let w := Scenario.start Scenario.scripted
             ([Scenario.failed 401 "Access denied."], []) in
  List.map req_url
    (sent (snd (call_api Scenario.face "post" "persongroups/family/train"
                  None false None w)))
    = ["https://westus.api.cognitive.microsoft.com/face/v1.0/persongroups/family/train"].
Proof.
  intros w.
  rewrite (proj1 (call_api_sends_one_request (host := Scenario.scripted)
                    Scenario.face "post" "persongroups/family/train"
                    None false None w _ eq_refl)).
  reflexivity.
Defined.

(** The scenario of the specification: Alice is created under
    [family]. *)
Lemma create_person_records_identifier_witness :
  let w := Scenario.family_world Scenario.scripted ∅
             ([Scenario.ok Scenario.created], []) in
  exists m',
    store (snd (async_create_person Scenario.face "Alice" "family" w))
      !! KStr "family" = Some m' /\
    m' !! KStr "Alice" = Some (PStr "abc123").
Proof.
  intros w.
  destruct (create_person_records_identifier (host := Scenario.scripted)
              Scenario.face "Alice" "family" w ∅ Scenario.created
              (snd (call_api Scenario.face "post" "persongroups/family/persons"
                      (Some (DataJson (PDict [("name", PStr "Alice")])))
                      false None w))
              (PStr "abc123")
              (family_world_consistent _ _ _) eq_refl eq_refl eq_refl)
    as (_ & (m' & Hm' & Hname & _) & _).
  by exists m'.
Defined.

(** ... and deleted again. *)
Lemma delete_person_removes_name_witness :
  let w := Scenario.family_world Scenario.scripted
             {[KStr "Alice" := PStr "abc123"]} ([Scenario.ok PNone], []) in
  exists m',
    store (snd (async_delete_person Scenario.face "Alice" "family" w))
      !! KStr "family" = Some m' /\
    m' !! KStr "Alice" = None.
Proof.
  intros w.
  destruct (delete_person_removes_name (host := Scenario.scripted)
              Scenario.face "Alice" "family" w
              {[KStr "Alice" := PStr "abc123"]} (PStr "abc123") PNone
              (snd (call_api Scenario.face "delete"
                      "persongroups/family/persons/abc123" None false None w))
              (family_world_consistent _ _ _) eq_refl eq_refl eq_refl)
    as (_ & (m' & Hm' & Hname & _) & _).
  by exists m'.
Defined.

Lemma create_then_delete_person_witness :
  let w := Scenario.family_world Scenario.scripted ∅
             ([Scenario.ok Scenario.created; Scenario.ok PNone], []) in
  store (snd (async_delete_person Scenario.face "Alice" "family"
                (snd (async_create_person Scenario.face "Alice" "family" w))))
    = store w.
Proof.
  intros w.
  exact (proj2 (create_then_delete_person (host := Scenario.scripted)
                  Scenario.face "Alice" "family" w ∅ Scenario.created
                  (PStr "abc123") PNone
                  (family_world_consistent _ _ _)
                  eq_refl eq_refl eq_refl eq_refl eq_refl)).
Defined.

(** The remote service creates Alice; the store has no such group. *)
Lemma create_person_absent_group_witness :
  let w := Scenario.start Scenario.scripted ([Scenario.ok Scenario.created], []) in
  fst (async_create_person Scenario.face "Alice" "family" w)
    = Raise (KeyError (PStr "family")).
Proof.
  intros w.
  rewrite (proj1 (create_person_absent_group (host := Scenario.scripted)
                    Scenario.face "Alice" "family" w Scenario.created _
                    (PStr "abc123") eq_refl eq_refl eq_refl)).
  reflexivity.
Defined.

Lemma delete_group_absent_locally_witness :
  let w := Scenario.start Scenario.scripted ([Scenario.ok PNone], []) in
  fst (async_delete_group Scenario.face "Family" w)
    = Raise (KeyError (PStr "family")).
Proof.
  intros w.
  rewrite (proj1 (delete_group_absent_locally (host := Scenario.scripted)
                    Scenario.face "Family" w PNone _ eq_refl eq_refl)).
  reflexivity.
Defined.

(** Three service calls in a row, the second one refused. *)
Lemma services_keep_registry_consistent_witness :
  let w := Scenario.start Scenario.scripted
             ([Scenario.ok PNone; Scenario.failed 429 "Rate limit is exceeded.";
               Scenario.ok PNone], []) in
  registry_consistent
    (dispatch_all Scenario.face
       [CreateGroup "Family"; CreatePerson "Alice" "family"; DeleteGroup "Family"]
       w).
Proof.
  intros w.
  apply (services_keep_registry_consistent (host := Scenario.scripted)).
  split; simpl.
  - intros k. by rewrite !lookup_empty.
  - intros k e. by rewrite lookup_empty.
Defined.

(** Creating a second group leaves [family] and Alice alone. *)
Lemma handlers_touch_only_their_group_witness :
  let w := Scenario.family_world Scenario.scripted
             {[KStr "Alice" := PStr "abc123"]} ([Scenario.ok PNone], []) in
  store (snd (handle Scenario.face (CreateGroup "Friends") w)) !! KStr "family"
    = Some {[KStr "Alice" := PStr "abc123"]}.
Proof.
  intros w.
  rewrite (handlers_touch_only_their_group (host := Scenario.scripted)
             Scenario.face (CreateGroup "Friends") w (KStr "family")).
  - reflexivity.
  - discriminate.
Defined.

(** A camera that delivers nothing. *)
Lemma face_person_camera_failure_witness :
  let w := Scenario.family_world Scenario.scripted
             {[KStr "Alice" := PStr "abc123"]} ([], []) in
  fst (async_face_person Scenario.face "Alice" "family" "camera.door" w)
    = Return tt /\
  sent (snd (async_face_person Scenario.face "Alice" "family" "camera.door" w))
    = [].
Proof.
  intros w.
  destruct (face_person_camera_failure (host := Scenario.scripted)
              Scenario.face "Alice" "family" "camera.door" w
              {[KStr "Alice" := PStr "abc123"]}
              (PStr "Unable to get image") _ eq_refl eq_refl)
    as (Hret & Hsent & _).
  by rewrite Hret, Hsent.
Defined.

(** A camera that delivers an image of two bytes. *)
Lemma face_person_posts_image_witness :
  let w := Scenario.family_world Scenario.scripted
             {[KStr "Alice" := PStr "abc123"]}
             ([Scenario.ok PNone], [Return [Byte.xff; Byte.xd8]]) in
  List.map (fun r => (req_url r, req_payload r))
    (sent (snd (async_face_person Scenario.face "Alice" "family" "camera.door" w)))
    = [("https://westus.api.cognitive.microsoft.com/face/v1.0/persongroups/family/persons/abc123/persistedFaces",
        PayloadRaw (DataBytes [Byte.xff; Byte.xd8]))].
Proof.
  intros w.
  rewrite (face_person_posts_image (host := Scenario.scripted)
             Scenario.face "Alice" "family" "camera.door" w
             {[KStr "Alice" := PStr "abc123"]} [Byte.xff; Byte.xd8] _
             eq_refl eq_refl).
  reflexivity.
Defined.

(** The group list arrives, the person list of [family] does not. *)
Lemma update_store_keeps_partial_population_witness :
  let H := Scenario.served Scenario.half_reachable_table in
  let w := Scenario.start H tt in
  fst (update_store Scenario.face w)
    = Raise (HomeAssistantError (PStr "Network error on microsoft face api.")) /\
  store (snd (update_store Scenario.face w)) !! KStr "family" = Some ∅.
Proof.
  intros H w.
  destruct (update_store_keeps_partial_population (host := H) Scenario.face w
              (PList [Scenario.family]) Scenario.family [] (PStr "family")
              (KStr "family") (PStr "Family"))
    as (Hret & Hstore & _).
  - intros []. by eexists _, _, _.
  - reflexivity.
  - reflexivity.
  - reflexivity.
  - reflexivity.
  - intros []. by eexists.
  - split; [exact Hret|]. rewrite Hstore. apply lookup_insert_eq.
Defined.

(** A group mirrored earlier that the remote list no longer names. *)
Lemma update_store_touches_only_listed_groups_witness :
  let H := Scenario.served Scenario.remote_table in
  let w := @World H {[KStr "old" := {[KStr "Bob" := PStr "b0b"]}]} ∅ tt [] in
  store (snd (update_store Scenario.face w)) !! KStr "old"
    = Some {[KStr "Bob" := PStr "b0b"]}.
Proof.
  intros H w.
  rewrite (update_store_touches_only_listed_groups (host := H) Scenario.face w
             (KStr "old")); [reflexivity|].
  intros groups w1 gs group g_id Hcall Hiter Hin Hgid.
  injection Hcall as <- _. injection Hiter as <-.
  apply list_elem_of_singleton in Hin as ->. injection Hgid as <-.
  discriminate.
Defined.

(** Setup against the remote service of the scenario. *)
Lemma async_setup_leaves_consistent_registry_witness :
  let H := Scenario.served Scenario.remote_table in
  let w := Scenario.start H tt in
  fst (async_setup "westus" "secret" 10 w) = Return (true, SERVICES) /\
  registry_consistent (snd (async_setup "westus" "secret" 10 w)).
Proof.
  intros H w. split; [reflexivity|].
  exact (proj1 (proj2 (async_setup_leaves_consistent_registry (host := H)
                         "westus" "secret" 10 w true SERVICES eq_refl))).
Defined.

(** Setup with no network. *)
Lemma async_setup_network_failure_witness :
  let H := Scenario.served Scenario.unreachable_table in
  let w := Scenario.start H tt in
  fst (async_setup "westus" "secret" 10 w) = Return (false, []).
Proof.
  intros H w.
  refine (proj1 (async_setup_network_failure (host := H)
                   "westus" "secret" 10 w _)).
  intros []. by eexists.
Defined.

(** The two cars of the scenario. *)
Lemma update_reports_only_when_tracking_witness :
  last (update (host := Scenario.scripted) (Z * Z) Scenario.tracked_car [])
    = Some (TrSee (Z * Z) "my_bmw_i3" "My BMW i3" (48, 11) "mdi:car") /\
  seen (Z * Z) (update (host := Scenario.scripted) (Z * Z) Scenario.private_car [])
    = [].
Proof.
  split.
  - exact (proj1 (proj2 (update_reports_only_when_tracking
                           (host := Scenario.scripted) (Z * Z)
                           Scenario.tracked_car [])) eq_refl).
  - rewrite (proj2 (proj2 (update_reports_only_when_tracking
                             (host := Scenario.scripted) (Z * Z)
                             Scenario.private_car [])) eq_refl).
    reflexivity.
Defined.

(** * Group handlers and the entity registry *)

Section GroupEntities.
Context `{host : Host}.
Variable face : MicrosoftFace.

(** X20: create group whose remote call succeeds registers, under the
    slug of the name, an entity view that carries the slug as its id
    and the display name as its name, and publishes it with a person
    count of zero under the entity id [microsoft_face.<slug>]. *)
Theorem create_group_registers_entity name w answer :
  fst (call_api face "put" ("persongroups/" ++ slugify name)
         (Some (DataJson (PDict [("name", PStr name)]))) false None w)
    = Return answer ->
  entities (snd (async_create_group face name w)) !! KStr (slugify name)
    = Some (Entity (PStr (slugify name)) (PStr name)) /\
  last (trace (snd (async_create_group face name w)))
    = Some (EvStateSet ("microsoft_face." ++ slugify name) 0 ∅) /\
  (forall k, k <> KStr (slugify name) ->
     entities (snd (async_create_group face name w)) !! k = entities w !! k).
Proof.
  intros Hcall.
  destruct (call_api_result face "put" ("persongroups/" ++ slugify name)
              (Some (DataJson (PDict [("name", PStr name)]))) false None w)
    as (r & w1 & Heq & Hs & He).
  rewrite Heq in Hcall. simpl in Hcall. subst r.
  rewrite (async_create_group_success _ _ _ _ _ Heq). simpl.
  split; [apply lookup_insert_eq|]. split; [by rewrite last_snoc|].
  intros k Hne. rewrite He. by apply lookup_insert_ne.
Qed.

(** X21: delete group on a mirrored group whose remote call succeeds
    completes, removes the group from the store and its entity from the
    registry, leaves every other group and entity in place, and removes
    the state published under [microsoft_face.<slug>]. *)
Theorem delete_group_removes_entity name w m answer :
  registry_consistent w ->
  store w !! KStr (slugify name) = Some m ->
  fst (call_api face "delete" ("persongroups/" ++ slugify name) None false None w)
    = Return answer ->
  fst (async_delete_group face name w) = Return tt /\
  store (snd (async_delete_group face name w))
    = delete (KStr (slugify name)) (store w) /\
  entities (snd (async_delete_group face name w))
    = delete (KStr (slugify name)) (entities w) /\
  last (trace (snd (async_delete_group face name w)))
    = Some (EvStateRemove ("microsoft_face." ++ slugify name)).
Proof.
  intros Hcons Hm Hcall.
  destruct (consistent_entity _ _ _ Hcons Hm) as (e & He & Hid).
  destruct (call_api_result face "delete" ("persongroups/" ++ slugify name)
              None false None w) as (r & w1 & Heq & Hs1 & He1).
  rewrite Heq in Hcall. simpl in Hcall. subst r.
  unfold async_delete_group.
  rewrite (try_except_HA_bind_Return _ _ _ _ _ _ Heq).
  unfold try_except_HA, bind, store_pop, entities_pop, states_async_remove.
  simpl. rewrite Hs1, Hm. simpl. rewrite He1, He. simpl.
  split; [done|]. split; [done|]. split; [done|].
  rewrite last_snoc. do 2 f_equal. unfold entity_id.
  destruct e as [eid ename]. simpl in *.
  destruct eid; simpl in Hid; try done.
  by injection Hid as ->.
Qed.

End GroupEntities.

(** Create group [Family] against an obliging remote service. *)
Lemma create_group_registers_entity_witness :
  let w := Scenario.start Scenario.scripted ([Scenario.ok PNone], []) in
  entities (snd (async_create_group Scenario.face "Family" w)) !! KStr "family"
    = Some Scenario.family_entity /\
  last (trace (snd (async_create_group Scenario.face "Family" w)))
    = Some (EvStateSet "microsoft_face.family" 0 ∅).
Proof.
  intros w.
  destruct (create_group_registers_entity (host := Scenario.scripted)
              Scenario.face "Family" w PNone eq_refl) as (He & Hlast & _).
  split; [exact He|exact Hlast].
Defined.

(** Delete the mirrored group [family]. *)
Lemma delete_group_removes_entity_witness :
  let w := Scenario.family_world Scenario.scripted
             {[KStr "Alice" := PStr "abc123"]} ([Scenario.ok PNone], []) in
  fst (async_delete_group Scenario.face "Family" w) = Return tt /\
  store (snd (async_delete_group Scenario.face "Family" w)) !! KStr "family"
    = None.
Proof.
  intros w.
  destruct (delete_group_removes_entity (host := Scenario.scripted)
              Scenario.face "Family" w {[KStr "Alice" := PStr "abc123"]} PNone
              (family_world_consistent _ _ _) eq_refl eq_refl)
    as (Hret & Hstore & _).
  split; [exact Hret|].
  change (KStr "family") with (KStr (slugify (Host := Scenario.scripted) "Family")).
  rewrite Hstore. apply lookup_delete_eq.
Defined.

(** * The full sync, on the answers it received *)

Section SyncRun.
Context `{host : Host}.
Variable face : MicrosoftFace.









End SyncRun.


(** A gateway answers 502 with a body that is no JSON: reading the
    body raises, and what leaves [call_api] is that [ValueError], or,
    when aiohttp refuses the content type with a client error, the
    fixed network error; neither carries a message of the remote
    service, and no error construction was attempted. *)
Lemma unreadable_error_body :
  let url := "https://westus.api.cognitive.microsoft.com/face/v1.0/persongroups" in
  let invalid := Scenario.start Scenario.scripted
                   ([Response 502 url (Raise ValueError)], []) in
  let refused := Scenario.start Scenario.scripted
                   ([Response 502 url (Raise ClientError)], []) in
  300 <= 502 /\
  fst (call_api Scenario.face "get" "persongroups" None false None invalid)
    = Raise ValueError /\
  fst (call_api Scenario.face "get" "persongroups" None false None refused)
    = Raise (HomeAssistantError (PStr "Network error on microsoft face api.")).
Proof. intros url invalid refused. split; [lia|]. split; reflexivity. Qed.
